(** * FairGradeForge: encrypted assignment submission and grading

    A shallow embedding of [contracts/FairGradeForge.sol] and the proofs of
    its access-control properties.

    Storage is modelled as the contract has it: [uint256] and [address]
    values are natural numbers ([N]) with Solidity 0.8's checked
    arithmetic written out, a [mapping] is a finite map read with the
    zero value as default, and a function body is a computation that
    reads the call context, threads the storage and may revert.  A
    transaction that reverts rolls the storage back. *)

From Stdlib Require Import NArith String.
From stdpp Require Import gmap strings list fin_maps.

Local Open Scope N_scope.

(** ** Value types *)

Abbreviation address := N (only parsing).
Abbreviation uint256 := N (only parsing).
(** [euint32] and [externalEuint32] are 32-byte handles. *)
Abbreviation euint32 := N (only parsing).
Abbreviation bytes := (list Byte.byte) (only parsing).

Definition MAX_UINT256 : N := 2 ^ 256 - 1.
Definition ADDRESS_BOUND : N := 2 ^ 160.

(** ** Structs *)

Record Assignment := mkAssignment {
  a_id : uint256;
  a_title : string;
  a_requirements : string;
  a_deadline : uint256;
  a_teacher : address;
  a_submissionCount : uint256;
  a_isGrading : bool
}.

Record Submission := mkSubmission {
  s_student : address;
  s_encryptedAnswer : euint32;
  s_timestamp : uint256;
  s_exists : bool
}.

Record Grade := mkGrade {
  g_encryptedScore : euint32;
  g_timestamp : uint256;
  g_exists : bool
}.

(** The value a mapping yields for a key that was never written. *)
Definition zeroAssignment : Assignment :=
  mkAssignment 0 EmptyString EmptyString 0 0 0 false.
Definition zeroSubmission : Submission := mkSubmission 0 0 0 false.
Definition zeroGrade : Grade := mkGrade 0 0 false.

(** ** Events *)

Inductive Event :=
| AssignmentCreated (assignmentId : uint256) (teacher : address)
                    (title : string) (deadline : uint256)
| SubmissionCreated (assignmentId : uint256) (student : address)
                    (timestamp : uint256)
| GradeAssigned (assignmentId : uint256) (student : address)
                (timestamp : uint256).

(** ** Contract storage

    Besides the contract's own variables the state carries the two
    pieces of chain state its calls write: the persistent allowances of
    the encrypted-value store ([acl], pairs of handle and account) and
    the event log. *)

Record State := mkState {
  teacher : address;
  assignments : gmap N Assignment;
  submissions : gmap N (gmap N Submission);
  grades : gmap N (gmap N Grade);
  totalAssignments : uint256;
  acl : gset (N * N);
  events : list Event
}.

(** Reading a mapping: [assignments[id]], [submissions[id][student]],
    [grades[id][student]]. *)
Definition assignmentAt (st : State) (id : N) : Assignment :=
  default zeroAssignment (assignments st !! id).

Definition submissionsOf (st : State) (id : N) : gmap N Submission :=
  default ∅ (submissions st !! id).

Definition submissionAt (st : State) (id student : N) : Submission :=
  default zeroSubmission (submissionsOf st id !! student).

Definition gradesOf (st : State) (id : N) : gmap N Grade :=
  default ∅ (grades st !! id).

Definition gradeAt (st : State) (id student : N) : Grade :=
  default zeroGrade (gradesOf st id !! student).

(** Writing storage. *)
Definition set_assignment (id : N) (a : Assignment) (st : State) : State :=
  mkState (teacher st) (<[id := a]> (assignments st)) (submissions st)
          (grades st) (totalAssignments st) (acl st) (events st).

Definition set_submission (id student : N) (s : Submission) (st : State)
  : State :=
  mkState (teacher st) (assignments st)
          (<[id := <[student := s]> (submissionsOf st id)]> (submissions st))
          (grades st) (totalAssignments st) (acl st) (events st).

Definition set_grade (id student : N) (g : Grade) (st : State) : State :=
  mkState (teacher st) (assignments st) (submissions st)
          (<[id := <[student := g]> (gradesOf st id)]> (grades st))
          (totalAssignments st) (acl st) (events st).

Definition set_totalAssignments (n : N) (st : State) : State :=
  mkState (teacher st) (assignments st) (submissions st) (grades st) n
          (acl st) (events st).

Definition add_allowance (h account : N) (st : State) : State :=
  mkState (teacher st) (assignments st) (submissions st) (grades st)
          (totalAssignments st) ({[ (h, account) ]} ∪ acl st) (events st).

Definition add_event (e : Event) (st : State) : State :=
  mkState (teacher st) (assignments st) (submissions st) (grades st)
          (totalAssignments st) (acl st) (events st ++ [e]).

Definition with_submissionCount (n : N) (a : Assignment) : Assignment :=
  mkAssignment (a_id a) (a_title a) (a_requirements a) (a_deadline a)
               (a_teacher a) n (a_isGrading a).

Definition with_isGrading (b : bool) (a : Assignment) : Assignment :=
  mkAssignment (a_id a) (a_title a) (a_requirements a) (a_deadline a)
               (a_teacher a) (a_submissionCount a) b.

(** ** Call context and external collaborator *)

Record Env := mkEnv {
  msg_sender : address;
  block_timestamp : uint256
}.

(** Modelled from the spec: the encrypted-value store (the FHE library and
    its coprocessor contracts) is missing from the sources.  Ingestion
    takes a ciphertext handle and a proof on behalf of the caller and
    either yields a handle or fails with InvalidProof; a grant records
    that an account may decrypt a handle.  [this] is the address of the
    deployed contract. *)
Class FHEVM := {
  this : address;
  verifyInput : address -> N -> bytes -> option N
}.

(** ** Errors

    One constructor per revert reason of the contract, named after the
    spec's error taxonomy; [Overflow] is the arithmetic panic of a
    checked [++]. *)

Inductive Error :=
| Unauthorized
| SelfSubmissionForbidden
| InvalidDeadline
| EmptyTitle
| NotFound
| DeadlinePassed
| AlreadySubmitted
| GradingNotOpen
| AlreadyStarted
| NoSubmission
| AlreadyGraded
| InvalidProof
| Overflow.

(** The message the contract reverts with ([InvalidProof] and [Overflow]
    come from the encrypted-value store and from the compiler's checked
    arithmetic; their strings are descriptive). *)
Definition revert_reason (e : Error) : string :=
  match e with
  | Unauthorized => "Only teacher can call this function"
  | SelfSubmissionForbidden => "Teacher cannot submit assignments"
  | InvalidDeadline => "Deadline must be in the future"
  | EmptyTitle => "Title cannot be empty"
  | NotFound => "Assignment does not exist"
  | DeadlinePassed => "Deadline has passed"
  | AlreadySubmitted => "Already submitted"
  | GradingNotOpen => "Deadline has not passed"
  | AlreadyStarted => "Grading already started"
  | NoSubmission => "Submission does not exist"
  | AlreadyGraded => "Already graded"
  | InvalidProof => "Invalid input proof"
  | Overflow => "Panic(0x11)"
  end.

(** ** The monad of function bodies

    A body reads the call context and the storage.  It yields the
    storage at the point where it stopped together with either a value
    or the error it reverted with. *)

Inductive Result (A : Type) :=
| Ok (a : A)
| Revert (e : Error).
Arguments Ok {A} a.
Arguments Revert {A} e.

Definition revert_message {A} (r : Result A) : option string :=
  match r with
  | Ok _ => None
  | Revert e => Some (revert_reason e)
  end.

Definition Tx (A : Type) : Type := Env -> State -> State * Result A.

Definition ret {A} (a : A) : Tx A := fun _ st => (st, Ok a).

Definition bind {A B} (m : Tx A) (f : A -> Tx B) : Tx B :=
  fun env st =>
    match m env st with
    | (st', Ok a) => f a env st'
    | (st', Revert e) => (st', Revert e)
    end.

Notation "'let*' x := m 'in' k" := (bind m (fun x => k))
  (at level 10, x name, m at level 100, k at level 200,
   format "'[v' 'let*'  x  :=  m  'in' '/' k ']'").
Notation "m ;; k" := (bind m (fun _ => k))
  (at level 100, k at level 200, right associativity).

Definition sender : Tx address := fun env st => (st, Ok (msg_sender env)).
Definition timestamp : Tx uint256 :=
  fun env st => (st, Ok (block_timestamp env)).
Definition gets {A} (f : State -> A) : Tx A := fun _ st => (st, Ok (f st)).
Definition modify (f : State -> State) : Tx unit :=
  fun _ st => (f st, Ok tt).
Definition revert {A} (e : Error) : Tx A := fun _ st => (st, Revert e).

Definition require (b : bool) (e : Error) : Tx unit :=
  if b then ret tt else revert e.

(** [x++] on a [uint256]: reverts when the result does not fit. *)
Definition checked_inc (n : N) : Tx N :=
  if n <? MAX_UINT256 then ret (n + 1) else revert Overflow.

Definition emit (e : Event) : Tx unit := modify (add_event e).

(** Modifiers. *)
Definition onlyTeacher : Tx unit :=
  let* who := sender in
  let* t := gets teacher in
  require (who =? t) Unauthorized.

Definition onlyStudent : Tx unit :=
  let* who := sender in
  let* t := gets teacher in
  require (negb (who =? t)) SelfSubmissionForbidden.

(** The authorization checks as the spec words them, against the creator
    field of the assignment instead of the global teacher; they are
    compared with the modifiers above. *)
Definition spec_isCreator (assignmentId : N) : Tx unit :=
  let* who := sender in
  let* creator := gets (fun st => a_teacher (assignmentAt st assignmentId)) in
  require (who =? creator) Unauthorized.

Definition spec_notCreator (assignmentId : N) : Tx unit :=
  let* who := sender in
  let* creator := gets (fun st => a_teacher (assignmentAt st assignmentId)) in
  require (negb (who =? creator)) SelfSubmissionForbidden.

(** The encrypted-value store as the contract calls it. *)
Section Contract.
Context `{fhe : FHEVM}.

(** Modelled from the spec: [FHE.fromExternal], the ingestion of the
    caller's ciphertext; a rejected proof reverts with InvalidProof. *)
Definition FHE_fromExternal (handle : N) (inputProof : bytes) : Tx N :=
  let* who := sender in
  match verifyInput who handle inputProof with
  | Some h => ret h
  | None => revert InvalidProof
  end.

(** Modelled from the spec: [FHE.allow] and [FHE.allowThis], the grant of
    decryption rights over a handle just ingested to an account and to
    the contract itself. *)
Definition FHE_allow (h account : N) : Tx unit :=
  modify (add_allowance h account).

Definition FHE_allowThis (h : N) : Tx unit := FHE_allow h this.

(** ** The contract's functions *)

(** [constructor()] *)
Definition constructor (env : Env) : State :=
  mkState (msg_sender env) ∅ ∅ ∅ 0 ∅ [].

(** [createAssignment(title, requirements, deadline)] *)
Definition createAssignment (title requirements : string) (deadline : N)
  : Tx N :=
  onlyTeacher ;;
  let* now := timestamp in
  require (now <? deadline) InvalidDeadline ;;
  require (0 <? N.of_nat (String.length title)) EmptyTitle ;;
  let* assignmentId := gets totalAssignments in
  let* next := checked_inc assignmentId in
  modify (set_totalAssignments next) ;;
  let* who := sender in
  modify (set_assignment assignmentId
            (mkAssignment assignmentId title requirements deadline who 0
                          false)) ;;
  emit (AssignmentCreated assignmentId who title deadline) ;;
  ret assignmentId.

(** [submitAssignment(assignmentId, encryptedAnswer, inputProof)] *)
Definition submitAssignment (assignmentId : N) (encryptedAnswer : N)
    (inputProof : bytes) : Tx unit :=
  onlyStudent ;;
  let* deadline := gets (fun st => a_deadline (assignmentAt st assignmentId)) in
  require (0 <? deadline) NotFound ;;
  let* now := timestamp in
  require (now <? deadline) DeadlinePassed ;;
  let* who := sender in
  let* already := gets (fun st => s_exists (submissionAt st assignmentId who)) in
  require (negb already) AlreadySubmitted ;;
  let* encryptedEuint32 := FHE_fromExternal encryptedAnswer inputProof in
  FHE_allowThis encryptedEuint32 ;;
  let* t := gets teacher in
  FHE_allow encryptedEuint32 t ;;
  modify (set_submission assignmentId who
            (mkSubmission who encryptedEuint32 now true)) ;;
  let* assignment := gets (fun st => assignmentAt st assignmentId) in
  let* count := checked_inc (a_submissionCount assignment) in
  modify (set_assignment assignmentId (with_submissionCount count assignment)) ;;
  emit (SubmissionCreated assignmentId who now).

(** [startGrading(assignmentId)] *)
Definition startGrading (assignmentId : N) : Tx unit :=
  onlyTeacher ;;
  let* assignment := gets (fun st => assignmentAt st assignmentId) in
  require (0 <? a_deadline assignment) NotFound ;;
  let* now := timestamp in
  require (a_deadline assignment <=? now) GradingNotOpen ;;
  require (negb (a_isGrading assignment)) AlreadyStarted ;;
  modify (set_assignment assignmentId (with_isGrading true assignment)).

(** [gradeSubmission(assignmentId, student, encryptedScore, inputProof)] *)
Definition gradeSubmission (assignmentId : N) (student : address)
    (encryptedScore : N) (inputProof : bytes) : Tx unit :=
  onlyTeacher ;;
  let* deadline := gets (fun st => a_deadline (assignmentAt st assignmentId)) in
  require (0 <? deadline) NotFound ;;
  let* now := timestamp in
  require (deadline <=? now) GradingNotOpen ;;
  let* submitted :=
    gets (fun st => s_exists (submissionAt st assignmentId student)) in
  require submitted NoSubmission ;;
  let* graded := gets (fun st => g_exists (gradeAt st assignmentId student)) in
  require (negb graded) AlreadyGraded ;;
  let* encryptedEuint32 := FHE_fromExternal encryptedScore inputProof in
  FHE_allowThis encryptedEuint32 ;;
  FHE_allow encryptedEuint32 student ;;
  modify (set_grade assignmentId student
            (mkGrade encryptedEuint32 now true)) ;;
  emit (GradeAssigned assignmentId student now).

(** [getAssignment(assignmentId)] *)
Definition getAssignment (assignmentId : N)
  : Tx (string * string * N * N * bool) :=
  let* assignment := gets (fun st => assignmentAt st assignmentId) in
  require (0 <? a_deadline assignment) NotFound ;;
  ret (a_title assignment, a_requirements assignment, a_deadline assignment,
       a_submissionCount assignment, a_isGrading assignment).

(** [getSubmission(assignmentId, student)] *)
Definition getSubmission (assignmentId : N) (student : address)
  : Tx (N * N * bool) :=
  let* submission := gets (fun st => submissionAt st assignmentId student) in
  ret (s_encryptedAnswer submission, s_timestamp submission,
       s_exists submission).

(** [getGrade(assignmentId, student)] *)
Definition getGrade (assignmentId : N) (student : address)
  : Tx (N * N * bool) :=
  let* grade := gets (fun st => gradeAt st assignmentId student) in
  ret (g_encryptedScore grade, g_timestamp grade, g_exists grade).

(** [hasSubmitted(assignmentId, student)] *)
Definition hasSubmitted (assignmentId : N) (student : address) : Tx bool :=
  gets (fun st => s_exists (submissionAt st assignmentId student)).

(** [hasGrade(assignmentId, student)] *)
Definition hasGrade (assignmentId : N) (student : address) : Tx bool :=
  gets (fun st => g_exists (gradeAt st assignmentId student)).

(** ** Transactions

    The four state-changing entry points, and the effect of sending one
    as a transaction: when the body reverts, the storage, the allowances
    and the log are those from before the call. *)

Inductive Call :=
| CreateAssignment (title requirements : string) (deadline : uint256)
| SubmitAssignment (assignmentId : uint256) (encryptedAnswer : N)
                   (inputProof : bytes)
| StartGrading (assignmentId : uint256)
| GradeSubmission (assignmentId : uint256) (student : address)
                  (encryptedScore : N) (inputProof : bytes).

Definition body (c : Call) : Tx unit :=
  match c with
  | CreateAssignment title requirements deadline =>
      createAssignment title requirements deadline ;; ret tt
  | SubmitAssignment id answer proof => submitAssignment id answer proof
  | StartGrading id => startGrading id
  | GradeSubmission id student score proof =>
      gradeSubmission id student score proof
  end.

Definition transact {A} (m : Tx A) (env : Env) (st : State)
  : State * Result A :=
  match m env st with
  | (st', Ok a) => (st', Ok a)
  | (_, Revert e) => (st, Revert e)
  end.

Definition exec (env : Env) (c : Call) (st : State) : State :=
  fst (transact (body c) env st).

Definition outcome (env : Env) (c : Call) (st : State) : Result unit :=
  snd (transact (body c) env st).

End Contract.

(** ** Reachable states, effects and the invariant *)

Section Reachability.
Context `{fhe : FHEVM}.

(** What the ABI guarantees about a call: the sender and every [address]
    argument are 160-bit values, the other words 256-bit. *)
Definition wf_env (env : Env) : Prop :=
  msg_sender env < ADDRESS_BOUND /\ block_timestamp env <= MAX_UINT256.

Definition wf_call (c : Call) : Prop :=
  match c with
  | CreateAssignment _ _ deadline => deadline <= MAX_UINT256
  | SubmitAssignment id answer _ => id <= MAX_UINT256 /\ answer <= MAX_UINT256
  | StartGrading id => id <= MAX_UINT256
  | GradeSubmission id student score _ =>
      id <= MAX_UINT256 /\ student < ADDRESS_BOUND /\ score <= MAX_UINT256
  end.

(** [steps_to st st']: [st'] is [st] after some sequence of transactions. *)
Inductive steps_to (st : State) : State -> Prop :=
| steps_refl : steps_to st st
| steps_next st' env c :
    steps_to st st' -> wf_env env -> wf_call c ->
    steps_to st (exec env c st').

(** The states of a contract deployed by [deployer]. *)
Definition reachable_from (deployer : address) (st : State) : Prop :=
  exists env0, wf_env env0 /\ msg_sender env0 = deployer /\
               steps_to (constructor env0) st.

Definition reachable (st : State) : Prop :=
  exists deployer, reachable_from deployer st.

(** The contract's own notion of an existing record. *)
Definition assignmentExists (st : State) (id : N) : bool :=
  0 <? a_deadline (assignmentAt st id).

Definition submissionExists (st : State) (id student : N) : bool :=
  s_exists (submissionAt st id student).

Definition gradeExists (st : State) (id student : N) : bool :=
  g_exists (gradeAt st id student).

(** The students holding a submission for an assignment. *)
Definition submitters (st : State) (id : N) : gset N :=
  dom (filter (fun kv => s_exists kv.2 = true) (submissionsOf st id)).

Definition countSubmitters (st : State) (id : N) : N :=
  N.of_nat (size (submitters st id)).

(** A transaction that is an accepted submission to assignment [id]. *)
Definition acceptedSubmission (env : Env) (c : Call) (st : State) (id : N)
  : Prop :=
  exists answer proof,
    c = SubmitAssignment id answer proof /\ outcome env c st = Ok tt.

(** The storage a successful call leaves. *)
Definition afterCreate (env : Env) (title requirements : string)
    (deadline : N) (st : State) : State :=
  add_event
    (AssignmentCreated (totalAssignments st) (msg_sender env) title deadline)
    (set_assignment (totalAssignments st)
       (mkAssignment (totalAssignments st) title requirements deadline
                     (msg_sender env) 0 false)
       (set_totalAssignments (totalAssignments st + 1) st)).

Definition afterIngest (env : Env) (id h : N) (st : State) : State :=
  set_submission id (msg_sender env)
    (mkSubmission (msg_sender env) h (block_timestamp env) true)
    (add_allowance h (teacher st) (add_allowance h this st)).

Definition afterSubmit (env : Env) (id h : N) (st : State) : State :=
  add_event (SubmissionCreated id (msg_sender env) (block_timestamp env))
    (set_assignment id
       (with_submissionCount (a_submissionCount (assignmentAt st id) + 1)
                             (assignmentAt st id))
       (afterIngest env id h st)).

Definition afterStart (id : N) (st : State) : State :=
  set_assignment id (with_isGrading true (assignmentAt st id)) st.

Definition afterGrade (env : Env) (id student h : N) (st : State) : State :=
  add_event (GradeAssigned id student (block_timestamp env))
    (set_grade id student (mkGrade h (block_timestamp env) true)
       (add_allowance h student (add_allowance h this st))).

(** The shape of a successful transaction. *)
Inductive Effect (env : Env) (st : State) : Call -> State -> Prop :=
| eff_create title requirements deadline :
    msg_sender env = teacher st ->
    block_timestamp env < deadline ->
    Effect env st (CreateAssignment title requirements deadline)
           (afterCreate env title requirements deadline st)
| eff_submit id answer proof h :
    verifyInput (msg_sender env) answer proof = Some h ->
    msg_sender env <> teacher st ->
    assignmentExists st id = true ->
    block_timestamp env < a_deadline (assignmentAt st id) ->
    submissionExists st id (msg_sender env) = false ->
    a_submissionCount (assignmentAt st id) < MAX_UINT256 ->
    Effect env st (SubmitAssignment id answer proof)
           (afterSubmit env id h st)
| eff_start id :
    msg_sender env = teacher st ->
    assignmentExists st id = true ->
    a_deadline (assignmentAt st id) <= block_timestamp env ->
    a_isGrading (assignmentAt st id) = false ->
    Effect env st (StartGrading id) (afterStart id st)
| eff_grade id student score proof h :
    verifyInput (msg_sender env) score proof = Some h ->
    msg_sender env = teacher st ->
    assignmentExists st id = true ->
    a_deadline (assignmentAt st id) <= block_timestamp env ->
    submissionExists st id student = true ->
    gradeExists st id student = false ->
    Effect env st (GradeSubmission id student score proof)
           (afterGrade env id student h st).

(** The storage invariant: every stored assignment was created by the
    teacher with a positive deadline, and the stored assignments are
    those with an identifier below [totalAssignments]; every stored
    submission is marked
    existing, belongs to an address other than the teacher and was made
    before the deadline; every stored grade is marked existing, has its
    submission and was given at or after the deadline; the counter of an
    assignment is the number of its stored submissions. *)
Record Inv (st : State) : Prop := mkInv {
  inv_assignment id a :
    assignments st !! id = Some a ->
    0 < a_deadline a /\ a_teacher a = teacher st /\ id < totalAssignments st;
  inv_allocated id :
    id < totalAssignments st -> is_Some (assignments st !! id);
  inv_submission id s r :
    submissionsOf st id !! s = Some r ->
    s_exists r = true /\ s < ADDRESS_BOUND /\ s <> teacher st /\
    s_timestamp r < a_deadline (assignmentAt st id);
  inv_grade id s g :
    gradesOf st id !! s = Some g ->
    g_exists g = true /\ submissionExists st id s = true /\
    a_deadline (assignmentAt st id) <= g_timestamp g;
  inv_count id :
    a_submissionCount (assignmentAt st id) =
    N.of_nat (size (submissionsOf st id))
}.

End Reachability.

(** ** A stand-in for the encrypted-value store and a scenario

    [mockFHEVM] accepts the proofs that start with the byte 01 and hands
    the ciphertext handle back; it rejects every other proof. *)

Definition mockFHEVM : FHEVM :=
  {| this := 4096;
     verifyInput := fun _ handle inputProof =>
       match inputProof with
       | Byte.x01 :: _ => Some handle
       | _ => None
       end |}.

Definition goodProof : list Byte.byte := [Byte.x01; Byte.xa5].
Definition badProof : list Byte.byte := [Byte.xff; Byte.x00].

Definition deployed : State := constructor (mkEnv 1 900).

Definition created : State :=
  exec (fhe := mockFHEVM) (mkEnv 1 1000)
       (CreateAssignment "Essay" "Answer the question" 1100) deployed.

Definition submitted : State :=
  exec (fhe := mockFHEVM) (mkEnv 2 1050)
       (SubmitAssignment 0 42 goodProof) created.

Definition graded : State :=
  exec (fhe := mockFHEVM) (mkEnv 1 1150)
       (GradeSubmission 0 2 85 goodProof) submitted.

(** A second student (address 3) submits as well. *)
Definition submittedTwice : State :=
  exec (fhe := mockFHEVM) (mkEnv 3 1070)
       (SubmitAssignment 0 100 goodProof) submitted.

(** The scenario, continued: the teacher raises the grading latch at
    1120. *)
Definition gradingStarted : State :=
  exec (fhe := mockFHEVM) (mkEnv 1 1120) (StartGrading 0) submitted.

(** ** Further notions: timed traces, the event log, the allowances *)

Section Further.
Context `{fhe : FHEVM}.

(** [steps_since t st st']: [st'] is [st] after transactions that all
    carry a block timestamp of at least [t]. *)
Inductive steps_since (t : N) (st : State) : State -> Prop :=
| since_refl : steps_since t st st
| since_next st' env c :
    steps_since t st st' -> wf_env env -> wf_call c ->
    t <= block_timestamp env ->
    steps_since t st (exec env c st').

(** The calls that need the grading window of assignment [id]. *)
Definition gradingCall (id : N) (c : Call) : Prop :=
  match c with
  | StartGrading id' => id' = id
  | GradeSubmission id' _ _ _ => id' = id
  | _ => False
  end.

Definition isStartGrading (c : Call) : bool :=
  match c with
  | StartGrading _ => true
  | _ => false
  end.

(** The students holding a grade for an assignment. *)
Definition gradedStudents (st : State) (id : N) : gset N :=
  dom (filter (fun kv => g_exists kv.2 = true) (gradesOf st id)).

(** The log, read by kind of event: the identifiers of the
    AssignmentCreated events, and the students of the SubmissionCreated
    and GradeAssigned events of one assignment, oldest first. *)
Definition createdOf (e : Event) : option N :=
  match e with
  | AssignmentCreated id _ _ _ => Some id
  | _ => None
  end.

Definition submitterOf (id : N) (e : Event) : option N :=
  match e with
  | SubmissionCreated id' student _ =>
      if decide (id' = id) then Some student else None
  | _ => None
  end.

Definition gradedOf (id : N) (e : Event) : option N :=
  match e with
  | GradeAssigned id' student _ =>
      if decide (id' = id) then Some student else None
  | _ => None
  end.

Definition creationEvents (st : State) : list N :=
  omap createdOf (events st).

Definition submissionEvents (st : State) (id : N) : list N :=
  omap (submitterOf id) (events st).

Definition gradeEvents (st : State) (id : N) : list N :=
  omap (gradedOf id) (events st).

(** The event a transaction emits: none when it reverts. *)
Definition emitted (env : Env) (c : Call) (st : State) : list Event :=
  match outcome env c st with
  | Revert _ => []
  | Ok _ =>
      match c with
      | CreateAssignment title _ deadline =>
          [AssignmentCreated (totalAssignments st) (msg_sender env) title
                             deadline]
      | SubmitAssignment id _ _ =>
          [SubmissionCreated id (msg_sender env) (block_timestamp env)]
      | StartGrading _ => []
      | GradeSubmission id student _ _ =>
          [GradeAssigned id student (block_timestamp env)]
      end
  end.

(** The allowances a transaction grants: none when it reverts. *)
Definition granted (env : Env) (c : Call) (st : State) : gset (N * N) :=
  match outcome env c st with
  | Revert _ => ∅
  | Ok _ =>
      match c with
      | SubmitAssignment _ answer proof =>
          match verifyInput (msg_sender env) answer proof with
          | Some h => {[ (h, this); (h, teacher st) ]}
          | None => ∅
          end
      | GradeSubmission _ student score proof =>
          match verifyInput (msg_sender env) score proof with
          | Some h => {[ (h, this); (h, student) ]}
          | None => ∅
          end
      | _ => ∅
      end
  end.

(** What the log and the allowances tell about the storage: the records
    carry their own key, the log lists each created assignment, each
    submitter and each graded student exactly once, and the allowances
    are those of the stored handles. *)
Record Ledger (st : State) : Prop := mkLedger {
  led_id id a : assignments st !! id = Some a -> a_id a = id;
  led_student id s r :
    submissionsOf st id !! s = Some r -> s_student r = s;
  led_total : totalAssignments st <= MAX_UINT256;
  led_created :
    creationEvents st = N.of_nat <$> seq 0 (N.to_nat (totalAssignments st));
  led_submitted id :
    NoDup (submissionEvents st id) /\
    forall s, s ∈ submissionEvents st id <->
              is_Some (submissionsOf st id !! s);
  led_graded id :
    NoDup (gradeEvents st id) /\
    forall s, s ∈ gradeEvents st id <-> is_Some (gradesOf st id !! s);
  led_acl_submission id s r :
    submissionsOf st id !! s = Some r ->
    (s_encryptedAnswer r, this) ∈ acl st /\
    (s_encryptedAnswer r, teacher st) ∈ acl st;
  led_acl_grade id s g :
    gradesOf st id !! s = Some g ->
    (g_encryptedScore g, this) ∈ acl st /\ (g_encryptedScore g, s) ∈ acl st;
  led_acl_only h account :
    (h, account) ∈ acl st ->
    (exists id s r, submissionsOf st id !! s = Some r /\
                    s_encryptedAnswer r = h /\
                    (account = this \/ account = teacher st)) \/
    (exists id s g, gradesOf st id !! s = Some g /\
                    g_encryptedScore g = h /\
                    (account = this \/ account = s))
}.

End Further.

(** ** The web client

    The parts of the React client that decide what to show or send from
    what the contract returns.  The client's clock is the second
    [now] = floor(Date.now() / 1000); a contract read returns the
    [Result] of the view function on the current state. *)

(** [isDeadlinePassed] and [canSubmit] of the assignment card;
    [hasSubmitted] is undefined ([None]) while its query is disabled. *)
Definition isDeadlinePassed (now timestamp : N) : bool :=
  (0 <? timestamp) && (timestamp <=? now).

Definition truthy (data : option bool) : bool := default false data.

Definition canSubmit (isTeacher : bool) (deadline now : N)
    (hasSubmitted : option bool) (isConnected : bool) : bool :=
  negb isTeacher && negb (isDeadlinePassed now deadline)
  && negb (truthy hasSubmitted) && isConnected.

(** The list of cards of both dashboards: one per identifier below
    [totalAssignments], counting up from zero. *)
Definition assignmentList (totalAssignments : N) : list N :=
  N.of_nat <$> seq 0 (N.to_nat totalAssignments).

(** A row of the grading dialog. *)
Record StudentSubmission := mkStudentSubmission {
  ss_address : address;
  ss_encryptedAnswer : N;
  ss_timestamp : uint256;
  ss_decryptedAnswer : option N;
  ss_score : string;
  ss_isGraded : bool
}.

Section Client.
Context `{fhe : FHEVM}.

Definition readContract {A} (view : Tx A) (env : Env) (st : State)
  : Result A :=
  snd (view env st).

(** The loop of [fetchSubmissions] over the students of the
    SubmissionCreated events: two reads per student, a row for each
    submission that exists; a failing read aborts the whole fetch. *)
Fixpoint collectSubmissions (env : Env) (st : State) (assignmentId : N)
    (students : list N) : Result (list StudentSubmission) :=
  match students with
  | [] => Ok []
  | studentAddress :: rest =>
      match readContract (getSubmission assignmentId studentAddress) env st
      with
      | Revert e => Revert e
      | Ok (encryptedAnswer, timestamp, submitted) =>
          match readContract (hasGrade assignmentId studentAddress) env st
          with
          | Revert e => Revert e
          | Ok isGraded =>
              match collectSubmissions env st assignmentId rest with
              | Revert e => Revert e
              | Ok studentList =>
                  Ok (if submitted
                      then mkStudentSubmission studentAddress encryptedAnswer
                             timestamp None EmptyString isGraded
                           :: studentList
                      else studentList)
              end
          end
      end
  end.

(** The row a stored submission gives. *)
Definition rowOf (st : State) (assignmentId : N) (student : address)
  : StudentSubmission :=
  mkStudentSubmission student
    (s_encryptedAnswer (submissionAt st assignmentId student))
    (s_timestamp (submissionAt st assignmentId student))
    None EmptyString (gradeExists st assignmentId student).

Definition fetchSubmissions (env : Env) (st : State) (assignmentId : N)
  : Result (list StudentSubmission) :=
  collectSubmissions env st assignmentId (submissionEvents st assignmentId).

End Client.



(** What [handleCreateAssignment] of the teacher dashboard does with the
    form: an error toast, a createAssignment transaction, or the
    RangeError of BigInt on an unparsable date.  [deadlineMs] is
    [new Date(deadline).getTime()], [None] when it is NaN; [nowMs] is
    [Date.now()]. *)
Inductive FormAction :=
| ToastError (message : string)
| WriteCreateAssignment (title requirements : string) (deadline : Z)
| ThrowsRangeError.

Definition isEmptyString (s : string) : bool :=
  match s with
  | EmptyString => true
  | String _ _ => false
  end.

Definition handleCreateAssignment (title requirements deadline : string)
    (deadlineMs : option Z) (nowMs : Z) : FormAction :=
  if isEmptyString title || isEmptyString requirements
     || isEmptyString deadline
  then ToastError "Please fill in all fields"
  else match deadlineMs with
       | None => ThrowsRangeError
       | Some ms =>
           let deadlineTimestamp := (ms / 1000)%Z in
           if (deadlineTimestamp <=? nowMs / 1000)%Z
           then ToastError "Deadline must be in the future"
           else WriteCreateAssignment title requirements deadlineTimestamp
       end.





From Stdlib Require Import Ascii.

(** The bytes32 argument the client builds from a handle it got as a
    Uint8Array, and the proof argument: [handleSubmit] and [handleGrade]
    write every byte as two hexadecimal digits
    ([b.toString(16).padStart(2, '0')]), join them, cut the handle's
    text after 64 characters or fill it with zeros up to 64, and put
    0x in front.  A text is a list of characters. *)
Definition hexDigits : list Ascii.ascii :=
  list_ascii_of_string "0123456789abcdef".

Definition hexDigit (d : N) : Ascii.ascii :=
  nth (N.to_nat d) hexDigits "0"%char.

Fixpoint toString16_go (fuel : nat) (n : N) (acc : list Ascii.ascii)
  : list Ascii.ascii :=
  match fuel with
  | O => acc
  | S fuel' =>
      let acc' := hexDigit (n mod 16) :: acc in
      if n / 16 =? 0 then acc' else toString16_go fuel' (n / 16) acc'
  end.

(** [n.toString(16)] for a non-negative integer. *)
Definition toString16 (n : N) : list Ascii.ascii :=
  toString16_go (S (N.to_nat (N.log2 n))) n [].

Definition padStart (targetLength : nat) (fill : Ascii.ascii)
    (s : list Ascii.ascii) : list Ascii.ascii :=
  replicate (targetLength - length s) fill ++ s.

Definition padEnd (targetLength : nat) (fill : Ascii.ascii)
    (s : list Ascii.ascii) : list Ascii.ascii :=
  s ++ replicate (targetLength - length s) fill.

Definition byteToHex (b : Byte.byte) : list Ascii.ascii :=
  padStart 2 "0"%char (toString16 (Byte.to_N b)).

Definition bytesToHex (bs : list Byte.byte) : list Ascii.ascii :=
  concat (map byteToHex bs).

Definition formatHandle (handle : list Byte.byte) : list Ascii.ascii :=
  let handleBytes := bytesToHex handle in
  let paddedHandle :=
    if (64 <? length handleBytes)%nat then take 64 handleBytes
    else padEnd 64 "0"%char handleBytes in
  "0"%char :: "x"%char :: paddedHandle.

Definition formatProof (proof : list Byte.byte) : list Ascii.ascii :=
  "0"%char :: "x"%char :: bytesToHex proof.

(** Reading hexadecimal text back, to state what the client sends. *)
Definition hexValue (c : Ascii.ascii) : option N :=
  let n := Ascii.N_of_ascii c in
  if (48 <=? n) && (n <=? 57) then Some (n - 48)
  else if (97 <=? n) && (n <=? 102) then Some (n - 87)
  else None.

Fixpoint hexToBytes (s : list Ascii.ascii) : option (list Byte.byte) :=
  match s with
  | [] => Some []
  | hi :: lo :: rest =>
      match hexValue hi, hexValue lo, hexToBytes rest with
      | Some h, Some l, Some bs =>
          match Byte.of_N (16 * h + l) with
          | Some b => Some (b :: bs)
          | None => None
          end
      | _, _, _ => None
      end
  | _ => None
  end.

(** ** Equations of the function bodies

    Each body as a decision table: the checks in the order the code makes
    them, then the storage it leaves. *)

Section Equations.
Context `{fhe : FHEVM}.

Lemma createAssignment_eq env st title requirements deadline :
  createAssignment title requirements deadline env st =
    if negb (msg_sender env =? teacher st) then (st, Revert Unauthorized)
    else if negb (block_timestamp env <? deadline)
      then (st, Revert InvalidDeadline)
    else if negb (0 <? N.of_nat (String.length title))
      then (st, Revert EmptyTitle)
    else if negb (totalAssignments st <? MAX_UINT256)
      then (st, Revert Overflow)
    else (afterCreate env title requirements deadline st,
          Ok (totalAssignments st)).
Proof.
  unfold createAssignment, onlyTeacher, bind, sender, gets, require,
    timestamp, checked_inc, ret, revert.
  destruct (msg_sender env =? teacher st); [|reflexivity].
  destruct (block_timestamp env <? deadline); [|reflexivity].
  destruct (0 <? N.of_nat (String.length title)); [|reflexivity].
  cbn. destruct (totalAssignments st <? MAX_UINT256); reflexivity.
Qed.

Lemma submitAssignment_eq env st id answer proof :
  submitAssignment id answer proof env st =
    if msg_sender env =? teacher st
      then (st, Revert SelfSubmissionForbidden)
    else if negb (assignmentExists st id) then (st, Revert NotFound)
    else if negb (block_timestamp env <? a_deadline (assignmentAt st id))
      then (st, Revert DeadlinePassed)
    else if submissionExists st id (msg_sender env)
      then (st, Revert AlreadySubmitted)
    else match verifyInput (msg_sender env) answer proof with
         | None => (st, Revert InvalidProof)
         | Some h =>
             if negb (a_submissionCount (assignmentAt st id) <? MAX_UINT256)
               then (afterIngest env id h st, Revert Overflow)
             else (afterSubmit env id h st, Ok tt)
         end.
Proof.
  unfold submitAssignment, onlyStudent, FHE_fromExternal, FHE_allowThis,
    FHE_allow, bind, sender, gets, require, timestamp, checked_inc, ret,
    revert, assignmentExists, submissionExists.
  destruct (msg_sender env =? teacher st); [reflexivity|].
  cbn. destruct (0 <? a_deadline (assignmentAt st id)); [|reflexivity].
  cbn. destruct (block_timestamp env <? a_deadline (assignmentAt st id));
    [|reflexivity].
  cbn. destruct (s_exists (submissionAt st id (msg_sender env)));
    [reflexivity|].
  cbn. destruct (verifyInput (msg_sender env) answer proof) as [h|];
    [|reflexivity].
  change (assignmentAt (set_submission _ _ _ _) id) with (assignmentAt st id).
  cbn. destruct (a_submissionCount (assignmentAt st id) <? MAX_UINT256);
    reflexivity.
Qed.

Lemma startGrading_eq env st id :
  startGrading id env st =
    if negb (msg_sender env =? teacher st) then (st, Revert Unauthorized)
    else if negb (assignmentExists st id) then (st, Revert NotFound)
    else if negb (a_deadline (assignmentAt st id) <=? block_timestamp env)
      then (st, Revert GradingNotOpen)
    else if a_isGrading (assignmentAt st id) then (st, Revert AlreadyStarted)
    else (afterStart id st, Ok tt).
Proof.
  unfold startGrading, onlyTeacher, bind, sender, gets, require, timestamp,
    ret, revert, assignmentExists.
  destruct (msg_sender env =? teacher st); [|reflexivity].
  cbn. destruct (0 <? a_deadline (assignmentAt st id)); [|reflexivity].
  cbn. destruct (a_deadline (assignmentAt st id) <=? block_timestamp env);
    [|reflexivity].
  cbn. destruct (a_isGrading (assignmentAt st id)); reflexivity.
Qed.

Lemma gradeSubmission_eq env st id student score proof :
  gradeSubmission id student score proof env st =
    if negb (msg_sender env =? teacher st) then (st, Revert Unauthorized)
    else if negb (assignmentExists st id) then (st, Revert NotFound)
    else if negb (a_deadline (assignmentAt st id) <=? block_timestamp env)
      then (st, Revert GradingNotOpen)
    else if negb (submissionExists st id student)
      then (st, Revert NoSubmission)
    else if gradeExists st id student then (st, Revert AlreadyGraded)
    else match verifyInput (msg_sender env) score proof with
         | None => (st, Revert InvalidProof)
         | Some h => (afterGrade env id student h st, Ok tt)
         end.
Proof.
  unfold gradeSubmission, onlyTeacher, FHE_fromExternal, FHE_allowThis,
    FHE_allow, bind, sender, gets, require, timestamp, ret, revert,
    assignmentExists, submissionExists, gradeExists.
  destruct (msg_sender env =? teacher st); [|reflexivity].
  cbn. destruct (0 <? a_deadline (assignmentAt st id)); [|reflexivity].
  cbn. destruct (a_deadline (assignmentAt st id) <=? block_timestamp env);
    [|reflexivity].
  cbn. destruct (s_exists (submissionAt st id student)); [|reflexivity].
  cbn. destruct (g_exists (gradeAt st id student)); [reflexivity|].
  cbn. destruct (verifyInput (msg_sender env) score proof); reflexivity.
Qed.

End Equations.

(** ** Reading storage after a write *)

Section Storage.

Lemma assignmentAt_insert (st st' : State) id a id' :
  assignments st' = <[id := a]> (assignments st) ->
  assignmentAt st' id' = if decide (id = id') then a else assignmentAt st id'.
Proof.
  intros E. unfold assignmentAt. rewrite E.
  destruct (decide (id = id')) as [->|Hne].
  - by rewrite lookup_insert_eq.
  - by rewrite lookup_insert_ne.
Qed.

Lemma assignmentAt_same (st st' : State) id :
  assignments st' = assignments st -> assignmentAt st' id = assignmentAt st id.
Proof. intros E. unfold assignmentAt. by rewrite E. Qed.

Lemma submissionsOf_insert (st st' : State) id s r id' :
  submissions st' = <[id := <[s := r]> (submissionsOf st id)]> (submissions st) ->
  submissionsOf st' id' =
    if decide (id = id') then <[s := r]> (submissionsOf st id)
    else submissionsOf st id'.
Proof.
  intros E. unfold submissionsOf at 1. rewrite E.
  destruct (decide (id = id')) as [->|Hne].
  - by rewrite lookup_insert_eq.
  - by rewrite lookup_insert_ne.
Qed.

Lemma submissionsOf_same (st st' : State) id :
  submissions st' = submissions st -> submissionsOf st' id = submissionsOf st id.
Proof. intros E. unfold submissionsOf. by rewrite E. Qed.

Lemma gradesOf_insert (st st' : State) id s g id' :
  grades st' = <[id := <[s := g]> (gradesOf st id)]> (grades st) ->
  gradesOf st' id' =
    if decide (id = id') then <[s := g]> (gradesOf st id) else gradesOf st id'.
Proof.
  intros E. unfold gradesOf at 1. rewrite E.
  destruct (decide (id = id')) as [->|Hne].
  - by rewrite lookup_insert_eq.
  - by rewrite lookup_insert_ne.
Qed.

Lemma gradesOf_same (st st' : State) id :
  grades st' = grades st -> gradesOf st' id = gradesOf st id.
Proof. intros E. unfold gradesOf. by rewrite E. Qed.

Lemma assignmentAt_stored st id :
  assignmentExists st id = true ->
  assignments st !! id = Some (assignmentAt st id).
Proof.
  unfold assignmentExists, assignmentAt.
  destruct (assignments st !! id); [done|]. cbn. intros H. discriminate H.
Qed.

Lemma submissionAt_stored st id s :
  submissionExists st id s = true ->
  submissionsOf st id !! s = Some (submissionAt st id s).
Proof.
  unfold submissionExists, submissionAt.
  destruct (submissionsOf st id !! s); [done|]. cbn. intros H. discriminate H.
Qed.

Lemma gradeAt_stored st id s :
  gradeExists st id s = true ->
  gradesOf st id !! s = Some (gradeAt st id s).
Proof.
  unfold gradeExists, gradeAt.
  destruct (gradesOf st id !! s); [done|]. cbn. intros H. discriminate H.
Qed.

(** A finite map whose keys all lie below [n] has at most [n] entries. *)
Lemma size_keys_below {V} (n : N) :
  forall m : gmap N V,
    (forall k, is_Some (m !! k) -> k < n) -> N.of_nat (size m) <= n.
Proof.
  induction n as [|n IH] using N.peano_ind; intros m Hm.
  - assert (m = ∅) as ->.
    { apply map_empty. intros i. destruct (m !! i) eqn:E; [|done].
      specialize (Hm i (ltac:(eauto))). lia. }
    rewrite map_size_empty. lia.
  - assert (N.of_nat (size (delete n m)) <= n) as Hd.
    { apply IH. intros k Hk.
      destruct (decide (k = n)) as [->|Hne].
      - rewrite lookup_delete_eq in Hk. by destruct Hk.
      - rewrite lookup_delete_ne in Hk by done. specialize (Hm k Hk). lia. }
    rewrite map_size_delete in Hd.
    destruct (m !! n); cbn in Hd; lia.
Qed.

End Storage.

(** ** The storage invariant *)

Section Invariant.
Context `{fhe : FHEVM}.

Lemma Inv_constructor env : Inv (constructor env).
Proof.
  split.
  - intros id a H. cbn in H. by rewrite lookup_empty in H.
  - intros id H. cbn in H. lia.
  - intros id s r H. unfold submissionsOf in H. cbn in H.
    rewrite lookup_empty in H. cbn in H. by rewrite lookup_empty in H.
  - intros id s g H. unfold gradesOf in H. cbn in H.
    rewrite lookup_empty in H. cbn in H. by rewrite lookup_empty in H.
  - intros id. unfold assignmentAt, submissionsOf. cbn.
    rewrite !lookup_empty. cbn. by rewrite map_size_empty.
Qed.

(** An identifier not yet allocated reads as the zero assignment and has
    no submissions. *)
Lemma Inv_unallocated st id :
  Inv st -> totalAssignments st <= id ->
  assignments st !! id = None /\ submissionsOf st id = ∅ /\ gradesOf st id = ∅.
Proof.
  intros I Hid.
  assert (assignments st !! id = None) as Hnone.
  { destruct (assignments st !! id) as [a|] eqn:E; [|done].
    destruct (inv_assignment _ I _ _ E) as (_ & _ & ?). lia. }
  assert (a_deadline (assignmentAt st id) = 0) as Hz.
  { unfold assignmentAt. by rewrite Hnone. }
  assert (submissionsOf st id = ∅) as Hs.
  { apply map_empty. intros s. destruct (submissionsOf st id !! s) eqn:E; [|done].
    destruct (inv_submission _ I _ _ _ E) as (_ & _ & _ & ?). lia. }
  split; [done|]. split; [done|].
  apply map_empty. intros s. destruct (gradesOf st id !! s) eqn:E; [|done].
  destruct (inv_grade _ I _ _ _ E) as (_ & Hx & _).
  unfold submissionExists, submissionAt in Hx. rewrite Hs, lookup_empty in Hx.
  discriminate Hx.
Qed.

Lemma Inv_afterCreate env title requirements deadline st :
  Inv st ->
  msg_sender env = teacher st ->
  block_timestamp env < deadline ->
  Inv (afterCreate env title requirements deadline st).
Proof.
  intros I Hs Hd.
  destruct (Inv_unallocated st (totalAssignments st) I (N.le_refl _))
    as (Hnone & Hsub & Hgr).
  set (st' := afterCreate env title requirements deadline st).
  assert (forall id', assignmentAt st' id' =
            if decide (totalAssignments st = id')
            then mkAssignment (totalAssignments st) title requirements
                   deadline (msg_sender env) 0 false
            else assignmentAt st id') as HA.
  { intros id'. by apply assignmentAt_insert. }
  assert (forall id', submissionsOf st' id' = submissionsOf st id') as HS.
  { intros id'. by apply submissionsOf_same. }
  assert (forall id', gradesOf st' id' = gradesOf st id') as HG.
  { intros id'. by apply gradesOf_same. }
  split.
  - intros id a H. change (assignments st') with
      (<[totalAssignments st := mkAssignment (totalAssignments st) title
           requirements deadline (msg_sender env) 0 false]> (assignments st)) in H.
    change (teacher st') with (teacher st).
    change (totalAssignments st') with (totalAssignments st + 1).
    destruct (decide (totalAssignments st = id)) as [<-|Hne].
    + rewrite lookup_insert_eq in H. injection H as <-. cbn.
      repeat split; [lia|done|lia].
    + rewrite lookup_insert_ne in H by done.
      destruct (inv_assignment _ I _ _ H) as (? & ? & ?).
      repeat split; [done|done|lia].
  - intros id H. change (totalAssignments st') with (totalAssignments st + 1) in H.
    change (assignments st') with
      (<[totalAssignments st := mkAssignment (totalAssignments st) title
           requirements deadline (msg_sender env) 0 false]> (assignments st)).
    destruct (decide (totalAssignments st = id)) as [<-|Hne].
    + rewrite lookup_insert_eq. eauto.
    + rewrite lookup_insert_ne by done. apply (inv_allocated _ I). lia.
  - intros id s r H. rewrite HS in H. rewrite HA.
    change (teacher st') with (teacher st).
    destruct (decide (totalAssignments st = id)) as [<-|Hne].
    + rewrite Hsub, lookup_empty in H. discriminate H.
    + by apply (inv_submission _ I).
  - intros id s g H. rewrite HG in H. rewrite HA.
    unfold submissionExists, submissionAt. rewrite HS.
    destruct (decide (totalAssignments st = id)) as [<-|Hne].
    + rewrite Hgr, lookup_empty in H. discriminate H.
    + by apply (inv_grade _ I).
  - intros id. rewrite HA, HS.
    destruct (decide (totalAssignments st = id)) as [<-|Hne].
    + rewrite Hsub, map_size_empty. done.
    + apply (inv_count _ I).
Qed.

Lemma Inv_afterSubmit env id h st :
  Inv st ->
  msg_sender env < ADDRESS_BOUND ->
  msg_sender env <> teacher st ->
  assignmentExists st id = true ->
  block_timestamp env < a_deadline (assignmentAt st id) ->
  submissionExists st id (msg_sender env) = false ->
  Inv (afterSubmit env id h st).
Proof.
  intros I Hb Hnt Hex Hd Hno.
  pose proof (assignmentAt_stored _ _ Hex) as Hst.
  set (new := mkSubmission (msg_sender env) h (block_timestamp env) true).
  set (a' := with_submissionCount (a_submissionCount (assignmentAt st id) + 1)
               (assignmentAt st id)).
  set (st' := afterSubmit env id h st).
  assert (forall id', assignmentAt st' id' =
            if decide (id = id') then a' else assignmentAt st id') as HA.
  { intros id'. by apply assignmentAt_insert. }
  assert (forall id', submissionsOf st' id' =
            if decide (id = id')
            then <[msg_sender env := new]> (submissionsOf st id)
            else submissionsOf st id') as HS.
  { intros id'. by apply submissionsOf_insert. }
  assert (forall id', gradesOf st' id' = gradesOf st id') as HG.
  { intros id'. by apply gradesOf_same. }
  assert (forall id', a_deadline (assignmentAt st' id') =
                      a_deadline (assignmentAt st id')) as HD.
  { intros id'. rewrite HA. by destruct (decide (id = id')) as [<-|]. }
  assert (submissionsOf st id !! msg_sender env = None) as Hfresh.
  { destruct (submissionsOf st id !! msg_sender env) as [r|] eqn:E; [|done].
    destruct (inv_submission _ I _ _ _ E) as (Hx & _).
    unfold submissionExists, submissionAt in Hno. rewrite E in Hno.
    cbn in Hno. congruence. }
  split.
  - intros id' a H. change (assignments st') with
      (<[id := a']> (assignments st)) in H.
    change (teacher st') with (teacher st).
    change (totalAssignments st') with (totalAssignments st).
    destruct (decide (id = id')) as [<-|Hne].
    + rewrite lookup_insert_eq in H. injection H as <-.
      exact (inv_assignment _ I id _ Hst).
    + rewrite lookup_insert_ne in H by done. by apply (inv_assignment _ I).
  - intros id' H. change (assignments st') with (<[id := a']> (assignments st)).
    apply lookup_insert_is_Some'. right. by apply (inv_allocated _ I).
  - intros id' s r H. rewrite HS in H. rewrite HD.
    change (teacher st') with (teacher st).
    destruct (decide (id = id')) as [<-|Hne]; [|by apply (inv_submission _ I)].
    destruct (decide (msg_sender env = s)) as [<-|Hns].
    + rewrite lookup_insert_eq in H. injection H as <-. done.
    + rewrite lookup_insert_ne in H by done. by apply (inv_submission _ I).
  - intros id' s g H. rewrite HG in H. rewrite HD.
    destruct (inv_grade _ I _ _ _ H) as (? & Hx & ?).
    split; [done|]. split; [|done].
    unfold submissionExists, submissionAt in *. rewrite HS.
    destruct (decide (id = id')) as [<-|Hne]; [|done].
    destruct (decide (msg_sender env = s)) as [<-|Hns].
    + by rewrite lookup_insert_eq.
    + by rewrite lookup_insert_ne.
  - intros id'. rewrite HA, HS.
    destruct (decide (id = id')) as [<-|Hne]; [|apply (inv_count _ I)].
    rewrite map_size_insert_None by done. cbn.
    rewrite (inv_count _ I id). lia.
Qed.

Lemma Inv_afterStart id st :
  Inv st -> assignmentExists st id = true -> Inv (afterStart id st).
Proof.
  intros I Hex.
  pose proof (assignmentAt_stored _ _ Hex) as Hst.
  set (st' := afterStart id st).
  assert (forall id', assignmentAt st' id' =
            if decide (id = id') then with_isGrading true (assignmentAt st id)
            else assignmentAt st id') as HA.
  { intros id'. by apply assignmentAt_insert. }
  assert (forall id', a_deadline (assignmentAt st' id') =
                      a_deadline (assignmentAt st id')) as HD.
  { intros id'. rewrite HA. by destruct (decide (id = id')) as [<-|]. }
  split.
  - intros id' a H. change (assignments st') with
      (<[id := with_isGrading true (assignmentAt st id)]> (assignments st)) in H.
    change (teacher st') with (teacher st).
    change (totalAssignments st') with (totalAssignments st).
    destruct (decide (id = id')) as [<-|Hne].
    + rewrite lookup_insert_eq in H. injection H as <-.
      exact (inv_assignment _ I id _ Hst).
    + rewrite lookup_insert_ne in H by done. by apply (inv_assignment _ I).
  - intros id' H. change (assignments st') with
      (<[id := with_isGrading true (assignmentAt st id)]> (assignments st)).
    apply lookup_insert_is_Some'. right. by apply (inv_allocated _ I).
  - intros id' s r H. rewrite HD. by apply (inv_submission _ I).
  - intros id' s g H. rewrite HD. by apply (inv_grade _ I).
  - intros id'. rewrite HA.
    destruct (decide (id = id')) as [<-|Hne]; apply (inv_count _ I).
Qed.

Lemma Inv_afterGrade env id student h st :
  Inv st ->
  a_deadline (assignmentAt st id) <= block_timestamp env ->
  submissionExists st id student = true ->
  Inv (afterGrade env id student h st).
Proof.
  intros I Hd Hsub.
  set (new := mkGrade h (block_timestamp env) true).
  set (st' := afterGrade env id student h st).
  assert (forall id', gradesOf st' id' =
            if decide (id = id') then <[student := new]> (gradesOf st id)
            else gradesOf st id') as HG.
  { intros id'. by apply gradesOf_insert. }
  split.
  - intros id' a H. by apply (inv_assignment _ I).
  - intros id' H. by apply (inv_allocated _ I).
  - intros id' s r H. by apply (inv_submission _ I).
  - intros id' s g H. rewrite HG in H.
    change (assignmentAt st' id') with (assignmentAt st id').
    change (submissionExists st' id' s) with (submissionExists st id' s).
    destruct (decide (id = id')) as [<-|Hne]; [|by apply (inv_grade _ I)].
    destruct (decide (student = s)) as [<-|Hns].
    + rewrite lookup_insert_eq in H. injection H as <-. done.
    + rewrite lookup_insert_ne in H by done. by apply (inv_grade _ I).
  - intros id'. apply (inv_count _ I).
Qed.

End Invariant.

(** ** One transaction *)

Section Step.
Context `{fhe : FHEVM}.

Lemma transact_revert {A} (m : Tx A) env st e :
  snd (transact m env st) = Revert e -> fst (transact m env st) = st.
Proof.
  unfold transact. destruct (m env st) as [st' [a|e']]; cbn; [discriminate|done].
Qed.

Lemma exec_revert env c st e :
  outcome env c st = Revert e -> exec env c st = st.
Proof. apply transact_revert. Qed.

Ltac boolean_facts :=
  repeat match goal with
  | H : negb _ = true |- _ => apply negb_true_iff in H
  | H : negb _ = false |- _ => apply negb_false_iff in H
  | H : (_ =? _) = true |- _ => apply N.eqb_eq in H
  | H : (_ =? _) = false |- _ => apply N.eqb_neq in H
  | H : (_ <? _) = true |- _ => apply N.ltb_lt in H
  | H : (_ <? _) = false |- _ => apply N.ltb_ge in H
  | H : (_ <=? _) = true |- _ => apply N.leb_le in H
  | H : (_ <=? _) = false |- _ => apply N.leb_gt in H
  end.

Lemma exec_ok env c st :
  outcome env c st = Ok tt -> Effect env st c (exec env c st).
Proof.
  unfold outcome, exec, transact.
  destruct c as [title req deadline|id answer proof|id|id student score proof];
    cbn [body].
  - unfold bind. rewrite createAssignment_eq.
    destruct (negb (msg_sender env =? teacher st)) eqn:E1; [discriminate|].
    destruct (negb (block_timestamp env <? deadline)) eqn:E2; [discriminate|].
    destruct (negb (0 <? N.of_nat (String.length title))) eqn:E3;
      [discriminate|].
    destruct (negb (totalAssignments st <? MAX_UINT256)) eqn:E4;
      [discriminate|].
    intros _. cbn. boolean_facts. by constructor.
  - rewrite submitAssignment_eq.
    destruct (msg_sender env =? teacher st) eqn:E1; [discriminate|].
    destruct (negb (assignmentExists st id)) eqn:E2; [discriminate|].
    destruct (negb (block_timestamp env <? a_deadline (assignmentAt st id)))
      eqn:E3; [discriminate|].
    destruct (submissionExists st id (msg_sender env)) eqn:E4; [discriminate|].
    destruct (verifyInput (msg_sender env) answer proof) as [h|] eqn:E5;
      [|discriminate].
    destruct (negb (a_submissionCount (assignmentAt st id) <? MAX_UINT256))
      eqn:E6; [discriminate|].
    intros _. cbn. boolean_facts. by econstructor.
  - rewrite startGrading_eq.
    destruct (negb (msg_sender env =? teacher st)) eqn:E1; [discriminate|].
    destruct (negb (assignmentExists st id)) eqn:E2; [discriminate|].
    destruct (negb (a_deadline (assignmentAt st id) <=? block_timestamp env))
      eqn:E3; [discriminate|].
    destruct (a_isGrading (assignmentAt st id)) eqn:E4; [discriminate|].
    intros _. cbn. boolean_facts. by constructor.
  - rewrite gradeSubmission_eq.
    destruct (negb (msg_sender env =? teacher st)) eqn:E1; [discriminate|].
    destruct (negb (assignmentExists st id)) eqn:E2; [discriminate|].
    destruct (negb (a_deadline (assignmentAt st id) <=? block_timestamp env))
      eqn:E3; [discriminate|].
    destruct (negb (submissionExists st id student)) eqn:E4; [discriminate|].
    destruct (gradeExists st id student) eqn:E5; [discriminate|].
    destruct (verifyInput (msg_sender env) score proof) as [h|] eqn:E6;
      [|discriminate].
    intros _. cbn. boolean_facts. by econstructor.
Qed.

(** Either the transaction reverted and nothing changed, or it took
    effect. *)
Lemma exec_cases env c st :
  (exists e, outcome env c st = Revert e /\ exec env c st = st) \/
  (outcome env c st = Ok tt /\ Effect env st c (exec env c st)).
Proof.
  destruct (outcome env c st) as [[]|e] eqn:E.
  - right. split; [done|]. by apply exec_ok.
  - left. exists e. split; [done|]. by eapply exec_revert.
Qed.

Lemma Inv_Effect env c st st' :
  msg_sender env < ADDRESS_BOUND -> Inv st -> Effect env st c st' -> Inv st'.
Proof.
  intros Hb I [title req deadline ? ?|id answer proof h ? ? ? ? ? ?
              |id ? ? ? ?|id student score proof h ? ? ? ? ? ?].
  - by apply Inv_afterCreate.
  - by apply Inv_afterSubmit.
  - by apply Inv_afterStart.
  - by apply Inv_afterGrade.
Qed.

Lemma Inv_exec env c st : wf_env env -> Inv st -> Inv (exec env c st).
Proof.
  intros [Hb _] I.
  destruct (exec_cases env c st) as [(e & _ & ->)|[_ Heff]]; [done|].
  by eapply Inv_Effect.
Qed.

(** What a successful transaction leaves untouched. *)
Lemma Effect_frame env c st st' :
  Inv st -> Effect env st c st' ->
  teacher st' = teacher st /\
  (forall id, assignmentExists st id = true ->
     a_deadline (assignmentAt st' id) = a_deadline (assignmentAt st id) /\
     a_teacher (assignmentAt st' id) = a_teacher (assignmentAt st id)) /\
  (forall id s, submissionExists st id s = true ->
     submissionAt st' id s = submissionAt st id s) /\
  (forall id s, gradeExists st id s = true ->
     gradeAt st' id s = gradeAt st id s).
Proof.
  intros I [title req deadline ? ?|id answer proof h ? ? ? ? Hno ?
           |id ? ? ? ?|id student score proof h ? ? ? ? ? Hno].
  - split; [done|]. split; [|done].
    intros id Hex.
    rewrite (assignmentAt_insert st (afterCreate env title req deadline st)
               (totalAssignments st) _ id eq_refl).
    destruct (decide (totalAssignments st = id)) as [<-|]; [|done].
    destruct (Inv_unallocated st _ I (N.le_refl _)) as (Hnone & _).
    unfold assignmentExists, assignmentAt in Hex. rewrite Hnone in Hex.
    discriminate Hex.
  - split; [done|]. split; [|split; [|done]].
    + intros id' Hex.
      rewrite (assignmentAt_insert st (afterSubmit env id h st) id _ id'
                 eq_refl).
      by destruct (decide (id = id')) as [<-|].
    + intros id' s Hex. unfold submissionAt.
      rewrite (submissionsOf_insert st (afterSubmit env id h st) id _ _ id'
                 eq_refl).
      destruct (decide (id = id')) as [<-|]; [|done].
      destruct (decide (msg_sender env = s)) as [<-|Hne]; [congruence|].
      by rewrite lookup_insert_ne.
  - split; [done|]. split; [|done].
    intros id' Hex.
    rewrite (assignmentAt_insert st (afterStart id st) id _ id' eq_refl).
    by destruct (decide (id = id')) as [<-|].
  - split; [done|]. split; [done|]. split; [done|].
    intros id' s Hex. unfold gradeAt.
    rewrite (gradesOf_insert st (afterGrade env id student h st) id _ _ id'
               eq_refl).
    destruct (decide (id = id')) as [<-|]; [|done].
    destruct (decide (student = s)) as [<-|Hne]; [congruence|].
    by rewrite lookup_insert_ne.
Qed.

End Step.

(** ** Sequences of transactions *)

Section Traces.
Context `{fhe : FHEVM}.

Lemma steps_Inv st st' : Inv st -> steps_to st st' -> Inv st'.
Proof.
  intros I Hs. induction Hs as [|st' env c _ IH Hwf _]; [done|].
  by apply Inv_exec.
Qed.

Lemma steps_trans st1 st2 st3 :
  steps_to st1 st2 -> steps_to st2 st3 -> steps_to st1 st3.
Proof.
  intros H12 H23. induction H23 as [|st3 env c _ IH Hwf Hwc]; [done|].
  by apply steps_next.
Qed.

Lemma reachable_from_Inv deployer st :
  reachable_from deployer st -> Inv st /\ teacher st = deployer.
Proof.
  intros (env0 & Hwf & <- & Hs). split.
  - eapply steps_Inv; [apply Inv_constructor|done].
  - clear Hwf. induction Hs as [|st' env c Hs IH _ _]; [done|].
    destruct (exec_cases env c st') as [(e & _ & ->)|[_ Heff]]; [done|].
    assert (Inv st') as I by (eapply steps_Inv; [apply Inv_constructor|done]).
    destruct (Effect_frame _ _ _ _ I Heff) as (-> & _). done.
Qed.

Lemma reachable_Inv st : reachable st -> Inv st.
Proof. intros [d H]. by destruct (reachable_from_Inv d st H). Qed.

Lemma reachable_steps st st' : reachable st -> steps_to st st' -> reachable st'.
Proof.
  intros (d & env0 & Hwf & Hd & Hs) Hs'. exists d, env0.
  split; [done|]. split; [done|]. by eapply steps_trans.
Qed.

(** Existing records are permanent: later transactions neither remove
    nor rewrite a submission or a grade, and never move a deadline. *)
Lemma steps_frame st st' :
  Inv st -> steps_to st st' ->
  teacher st' = teacher st /\
  (forall id, assignmentExists st id = true ->
     assignmentExists st' id = true /\
     a_deadline (assignmentAt st' id) = a_deadline (assignmentAt st id) /\
     a_teacher (assignmentAt st' id) = a_teacher (assignmentAt st id)) /\
  (forall id s, submissionExists st id s = true ->
     submissionAt st' id s = submissionAt st id s) /\
  (forall id s, gradeExists st id s = true ->
     gradeAt st' id s = gradeAt st id s).
Proof.
  intros I Hs. induction Hs as [|st' env c Hs IH _ _]; [done|].
  destruct IH as (Ht & Ha & Hsub & Hgr).
  destruct (exec_cases env c st') as [(e & _ & ->)|[_ Heff]]; [done|].
  assert (Inv st') as I' by by eapply steps_Inv.
  destruct (Effect_frame _ _ _ _ I' Heff) as (Ht' & Ha' & Hsub' & Hgr').
  split; [congruence|]. split; [|split].
  - intros id Hex. destruct (Ha id Hex) as (Hex' & Hd & Hc).
    destruct (Ha' id Hex') as (Hd' & Hc').
    split; [|split; congruence].
    unfold assignmentExists in *. by rewrite Hd'.
  - intros id s Hex. rewrite <- (Hsub id s Hex). apply Hsub'.
    unfold submissionExists. by rewrite (Hsub id s Hex).
  - intros id s Hex. rewrite <- (Hgr id s Hex). apply Hgr'.
    unfold gradeExists. by rewrite (Hgr id s Hex).
Qed.

(** The counter of an assignment cannot reach the top of [uint256]:
    there are fewer addresses than that. *)
Lemma Inv_count_bound st id :
  Inv st -> a_submissionCount (assignmentAt st id) <= ADDRESS_BOUND.
Proof.
  intros I. rewrite (inv_count _ I). apply size_keys_below.
  intros s [r Hr]. by destruct (inv_submission _ I _ _ _ Hr) as (_ & ? & _).
Qed.

Lemma Inv_no_overflow st id :
  Inv st -> (a_submissionCount (assignmentAt st id) <? MAX_UINT256) = true.
Proof.
  intros I. apply N.ltb_lt. pose proof (Inv_count_bound st id I) as H.
  unfold ADDRESS_BOUND in H. unfold MAX_UINT256.
  eapply N.le_lt_trans; [exact H|]. reflexivity.
Qed.

Lemma Inv_creator st id :
  Inv st -> assignmentExists st id = true ->
  a_teacher (assignmentAt st id) = teacher st.
Proof.
  intros I Hex.
  by destruct (inv_assignment _ I _ _ (assignmentAt_stored _ _ Hex)) as (_ & ? & _).
Qed.

(** An assignment exists, in the contract's sense of a positive
    deadline, exactly when its identifier has been allocated. *)
Lemma Inv_exists_allocated st id :
  Inv st -> assignmentExists st id = true <-> id < totalAssignments st.
Proof.
  intros I. split.
  - intros Hex.
    by destruct (inv_assignment _ I _ _ (assignmentAt_stored _ _ Hex))
      as (_ & _ & ?).
  - intros Hlt. destruct (inv_allocated _ I _ Hlt) as [a Ha].
    destruct (inv_assignment _ I _ _ Ha) as (Hpos & _).
    unfold assignmentExists, assignmentAt. rewrite Ha. by apply N.ltb_lt.
Qed.

Lemma Inv_absent_submission st id s :
  Inv st -> submissionExists st id s = false ->
  submissionsOf st id !! s = None.
Proof.
  intros I Hno. destruct (submissionsOf st id !! s) as [r|] eqn:E; [|done].
  destruct (inv_submission _ I _ _ _ E) as (Hx & _).
  unfold submissionExists, submissionAt in Hno. rewrite E in Hno. cbn in Hno.
  congruence.
Qed.

Lemma Inv_absent_grade st id s :
  Inv st -> gradeExists st id s = false -> gradesOf st id !! s = None.
Proof.
  intros I Hno. destruct (gradesOf st id !! s) as [g|] eqn:E; [|done].
  destruct (inv_grade _ I _ _ _ E) as (Hx & _).
  unfold gradeExists, gradeAt in Hno. rewrite E in Hno. cbn in Hno.
  congruence.
Qed.

Lemma submitters_spec st id s :
  s ∈ submitters st id <-> submissionExists st id s = true.
Proof.
  unfold submitters, submissionExists, submissionAt.
  rewrite elem_of_dom. split.
  - intros [r Hr]. apply map_lookup_filter_Some in Hr as [Hr Hx].
    by rewrite Hr.
  - intros Hx. destruct (submissionsOf st id !! s) as [r|] eqn:E.
    + exists r. by apply map_lookup_filter_Some.
    + discriminate Hx.
Qed.

Lemma Inv_countSubmitters st id :
  Inv st -> a_submissionCount (assignmentAt st id) = countSubmitters st id.
Proof.
  intros I. rewrite (inv_count _ I). unfold countSubmitters, submitters.
  rewrite size_dom. f_equal. f_equal. symmetry. apply map_filter_id.
  intros s r Hr. by destruct (inv_submission _ I _ _ _ Hr) as (? & _).
Qed.

End Traces.

(** ** Outcome tables *)

Section Outcomes.
Context `{fhe : FHEVM}.

Lemma outcome_submit env st id answer proof :
  outcome env (SubmitAssignment id answer proof) st =
    if msg_sender env =? teacher st then Revert SelfSubmissionForbidden
    else if negb (assignmentExists st id) then Revert NotFound
    else if negb (block_timestamp env <? a_deadline (assignmentAt st id))
      then Revert DeadlinePassed
    else if submissionExists st id (msg_sender env)
      then Revert AlreadySubmitted
    else match verifyInput (msg_sender env) answer proof with
         | None => Revert InvalidProof
         | Some _ =>
             if negb (a_submissionCount (assignmentAt st id) <? MAX_UINT256)
             then Revert Overflow else Ok tt
         end.
Proof.
  unfold outcome, transact. cbn [body]. rewrite submitAssignment_eq.
  repeat match goal with
         | |- context [if ?b then _ else _] => destruct b; try reflexivity
         | |- context [match ?o with Some _ => _ | None => _ end] =>
             destruct o; try reflexivity
         end.
Qed.

Lemma outcome_grade env st id student score proof :
  outcome env (GradeSubmission id student score proof) st =
    if negb (msg_sender env =? teacher st) then Revert Unauthorized
    else if negb (assignmentExists st id) then Revert NotFound
    else if negb (a_deadline (assignmentAt st id) <=? block_timestamp env)
      then Revert GradingNotOpen
    else if negb (submissionExists st id student) then Revert NoSubmission
    else if gradeExists st id student then Revert AlreadyGraded
    else match verifyInput (msg_sender env) score proof with
         | None => Revert InvalidProof
         | Some _ => Ok tt
         end.
Proof.
  unfold outcome, transact. cbn [body]. rewrite gradeSubmission_eq.
  repeat match goal with
         | |- context [if ?b then _ else _] => destruct b; try reflexivity
         | |- context [match ?o with Some _ => _ | None => _ end] =>
             destruct o; try reflexivity
         end.
Qed.

Lemma outcome_create env st title requirements deadline :
  outcome env (CreateAssignment title requirements deadline) st =
    if negb (msg_sender env =? teacher st) then Revert Unauthorized
    else if negb (block_timestamp env <? deadline) then Revert InvalidDeadline
    else if negb (0 <? N.of_nat (String.length title)) then Revert EmptyTitle
    else if negb (totalAssignments st <? MAX_UINT256) then Revert Overflow
    else Ok tt.
Proof.
  unfold outcome, transact. cbn [body]. unfold bind.
  rewrite createAssignment_eq.
  repeat match goal with
         | |- context [if ?b then _ else _] => destruct b; try reflexivity
         end.
Qed.

(** Where a body stops on a failed check, it has written nothing yet; the
    one failure that comes after writes is the overflow of the
    submission counter. *)
Lemma body_revert_clean env c st e :
  snd (body c env st) = Revert e -> e <> Overflow -> fst (body c env st) = st.
Proof.
  destruct c as [title req deadline|id answer proof|id|id student score proof];
    cbn [body].
  - unfold bind. rewrite createAssignment_eq.
    repeat match goal with
           | |- context [if ?b then _ else _] => destruct b; try done
           end.
  - rewrite submitAssignment_eq.
    repeat match goal with
           | |- context [if ?b then _ else _] => destruct b; try done
           | |- context [match ?o with Some _ => _ | None => _ end] =>
               destruct o; try done
           end.
    cbn. intros [= <-]. done.
  - rewrite startGrading_eq.
    repeat match goal with
           | |- context [if ?b then _ else _] => destruct b; try done
           end.
  - rewrite gradeSubmission_eq.
    repeat match goal with
           | |- context [if ?b then _ else _] => destruct b; try done
           | |- context [match ?o with Some _ => _ | None => _ end] =>
               destruct o; try done
           end.
Qed.

Lemma outcome_body env c st e :
  outcome env c st = Revert e -> snd (body c env st) = Revert e.
Proof.
  unfold outcome, transact. destruct (body c env st) as [st' [a|e']]; done.
Qed.

End Outcomes.

(** ** Properties of the contract *)

Section Properties.
Context `{fhe : FHEVM}.

(** C9. A failed createAssignment, submitAssignment, startGrading or
    gradeSubmission changes nothing: whenever the transaction reverts,
    with any error and in particular with InvalidProof from ingestion,
    the whole state (assignments, submissions, grades, totalAssignments,
    allowances, log) is the one from before the call.  Moreover, except
    for an arithmetic overflow, the body had not written anything when
    it stopped. *)
Theorem failed_call_changes_nothing env c st e :
  outcome env c st = Revert e ->
  exec env c st = st /\
  teacher (exec env c st) = teacher st /\
  assignments (exec env c st) = assignments st /\
  submissions (exec env c st) = submissions st /\
  grades (exec env c st) = grades st /\
  totalAssignments (exec env c st) = totalAssignments st /\
  acl (exec env c st) = acl st /\
  (e <> Overflow -> fst (body c env st) = st).
Proof.
  intros H. rewrite (exec_revert _ _ _ _ H).
  repeat (split; [reflexivity|]).
  apply body_revert_clean. by apply outcome_body.
Qed.

(** C6. In every reachable state, for every existing assignment and at
    every time, submitAssignment called by the assignment's creator fails
    with SelfSubmissionForbidden and leaves the state unchanged; the
    creator holds no Submission for the assignment. *)
Theorem creator_cannot_submit st id env answer proof :
  reachable st ->
  assignmentExists st id = true ->
  msg_sender env = a_teacher (assignmentAt st id) ->
  outcome env (SubmitAssignment id answer proof) st
    = Revert SelfSubmissionForbidden /\
  exec env (SubmitAssignment id answer proof) st = st /\
  submissionExists st id (a_teacher (assignmentAt st id)) = false.
Proof.
  intros Hr Hex Hc. pose proof (reachable_Inv _ Hr) as I.
  rewrite (Inv_creator _ _ I Hex) in *.
  assert (outcome env (SubmitAssignment id answer proof) st
          = Revert SelfSubmissionForbidden) as Ho.
  { rewrite outcome_submit. by rewrite Hc, N.eqb_refl. }
  split; [done|]. split; [by eapply exec_revert|].
  destruct (submissionExists st id (teacher st)) eqn:E; [|done].
  pose proof (submissionAt_stored _ _ _ E) as Hs.
  by destruct (inv_submission _ I _ _ _ Hs) as (_ & _ & ? & _).
Qed.

(** C10. In every state reachable after deployment by [deployer], the
    teacher is [deployer]; only the teacher can create an assignment;
    every existing assignment's creator field is that teacher; hence
    comparing a caller with the global teacher, as the modifiers of
    submitAssignment, startGrading and gradeSubmission do, gives the same
    answer as comparing it with the assignment's creator, and the
    modifiers behave as the checks against the creator field would. *)
Theorem single_teacher deployer st :
  reachable_from deployer st ->
  teacher st = deployer /\
  (forall env title requirements deadline,
     msg_sender env <> teacher st ->
     outcome env (CreateAssignment title requirements deadline) st
       = Revert Unauthorized) /\
  (forall id, assignmentExists st id = true ->
     a_teacher (assignmentAt st id) = deployer) /\
  (forall id who, assignmentExists st id = true ->
     (who =? teacher st) = (who =? a_teacher (assignmentAt st id))) /\
  (forall id env, assignmentExists st id = true ->
     onlyTeacher env st = spec_isCreator id env st /\
     onlyStudent env st = spec_notCreator id env st).
Proof.
  intros Hr. destruct (reachable_from_Inv _ _ Hr) as [I Ht].
  split; [done|]. split; [|split; [|split]].
  - intros env title req deadline Hne. rewrite outcome_create.
    apply N.eqb_neq in Hne. by rewrite Hne.
  - intros id Hex. by rewrite (Inv_creator _ _ I Hex).
  - intros id who Hex. by rewrite (Inv_creator _ _ I Hex).
  - intros id env Hex.
    unfold onlyTeacher, onlyStudent, spec_isCreator, spec_notCreator, bind,
      sender, gets.
    by rewrite (Inv_creator _ _ I Hex).
Qed.

Lemma submit_accepted env st id answer proof h :
  Inv st ->
  msg_sender env <> teacher st ->
  assignmentExists st id = true ->
  block_timestamp env < a_deadline (assignmentAt st id) ->
  submissionExists st id (msg_sender env) = false ->
  verifyInput (msg_sender env) answer proof = Some h ->
  outcome env (SubmitAssignment id answer proof) st = Ok tt.
Proof.
  intros I Hne Hex Hlt Hno Hv. rewrite outcome_submit, Hex, Hno, Hv.
  apply N.eqb_neq in Hne. apply N.ltb_lt in Hlt. rewrite Hne, Hlt. cbn.
  by rewrite (Inv_no_overflow _ _ I).
Qed.

(** C3. In every reachable state the submissionCount of an assignment is
    the number of distinct students holding a Submission for it (the
    size of the set of students whose Submission exists); a successful
    submitAssignment for the assignment raises it by exactly
    one, and no other transaction changes it.  Such successes exist: a
    first submission by an account other than the teacher, before the
    deadline and with an accepted proof, is accepted and adds its
    sender, and nobody else, to the students counted. *)
Theorem submissionCount_counts_submitters st id env c :
  reachable st ->
  (forall s, s ∈ submitters st id <-> submissionExists st id s = true) /\
  a_submissionCount (assignmentAt st id) = countSubmitters st id /\
  (acceptedSubmission env c st id ->
     a_submissionCount (assignmentAt (exec env c st) id)
       = a_submissionCount (assignmentAt st id) + 1) /\
  (~ acceptedSubmission env c st id ->
     a_submissionCount (assignmentAt (exec env c st) id)
       = a_submissionCount (assignmentAt st id)) /\
  (forall answer proof h,
     c = SubmitAssignment id answer proof ->
     msg_sender env <> teacher st ->
     assignmentExists st id = true ->
     block_timestamp env < a_deadline (assignmentAt st id) ->
     submissionExists st id (msg_sender env) = false ->
     verifyInput (msg_sender env) answer proof = Some h ->
     acceptedSubmission env c st id /\
     submitters (exec env c st) id = {[ msg_sender env ]} ∪ submitters st id).
Proof.
  intros Hr. pose proof (reachable_Inv _ Hr) as I.
  split; [intros s; apply submitters_spec|].
  split; [by apply Inv_countSubmitters|].
  rewrite (assoc and). split; [|].
  2: { intros answer proof h -> Hne Hex Hlt Hno Hv.
       pose proof (submit_accepted _ _ _ _ _ _ I Hne Hex Hlt Hno Hv) as Ho.
       split; [by exists answer, proof|].
       pose proof (exec_ok _ _ _ Ho) as Heff.
       inversion Heff as [|id0 a0 p0 h0 _ _ _ _ _ _ E1 E2| |]; subst.
       unfold submitters.
       rewrite (submissionsOf_insert st (afterSubmit env id h0 st) id _ _ id
                  eq_refl).
       destruct (decide (id = id)); [|done].
       rewrite map_filter_insert_True by done. by rewrite dom_insert_L. }
  destruct (exec_cases env c st) as [(e & Ho & ->)|[Ho Heff]].
  { split; [|done]. intros (answer & proof & -> & Hok). congruence. }
  destruct Heff as [title req deadline ? ?|id0 answer proof h ? ? ? ? ? ?
                   |id0 ? ? ? ?|id0 student score proof h ? ? ? ? ? ?].
  - assert (a_submissionCount
              (assignmentAt (afterCreate env title req deadline st) id)
            = a_submissionCount (assignmentAt st id)) as E.
    { rewrite (assignmentAt_insert st (afterCreate env title req deadline st)
                 (totalAssignments st) _ id eq_refl).
      destruct (decide (totalAssignments st = id)) as [<-|]; [|done].
      destruct (Inv_unallocated st _ I (N.le_refl _)) as (Hnone & _).
      unfold assignmentAt. by rewrite Hnone. }
    split; [|done]. intros (answer & proof & [=] & _).
  - rewrite (assignmentAt_insert st (afterSubmit env id0 h st) id0 _ id
               eq_refl).
    destruct (decide (id0 = id)) as [<-|Hne].
    + split; [done|]. intros Hn. exfalso. apply Hn. by exists answer, proof.
    + split; [|done]. intros (answer' & proof' & [= -> _ _] & _). done.
  - assert (a_submissionCount (assignmentAt (afterStart id0 st) id)
            = a_submissionCount (assignmentAt st id)) as E.
    { rewrite (assignmentAt_insert st (afterStart id0 st) id0 _ id eq_refl).
      by destruct (decide (id0 = id)) as [<-|]. }
    split; [|done]. intros (answer & proof & [=] & _).
  - split; [|done]. intros (answer & proof' & [=] & _).
Qed.

(** C7 (amended). Neither getter ever fails.  getSubmission and getGrade
    return the stored triple (handle, timestamp, exists) for every key
    and leave the state alone; for a key without a Submission, or without
    a Grade, in a reachable state the triple is the zero record
    (0, 0, false). *)
Theorem getters_return_default st env id student :
  reachable st ->
  getSubmission id student env st
    = (st, Ok (s_encryptedAnswer (submissionAt st id student),
               s_timestamp (submissionAt st id student),
               submissionExists st id student)) /\
  getGrade id student env st
    = (st, Ok (g_encryptedScore (gradeAt st id student),
               g_timestamp (gradeAt st id student),
               gradeExists st id student)) /\
  (submissionExists st id student = false ->
     getSubmission id student env st = (st, Ok (0, 0, false))) /\
  (gradeExists st id student = false ->
     getGrade id student env st = (st, Ok (0, 0, false))).
Proof.
  intros Hr. pose proof (reachable_Inv _ Hr) as I.
  split; [reflexivity|]. split; [reflexivity|]. split.
  - intros Hno. unfold getSubmission, bind, gets, ret, submissionAt.
    by rewrite (Inv_absent_submission _ _ _ I Hno).
  - intros Hno. unfold getGrade, bind, gets, ret, gradeAt.
    by rewrite (Inv_absent_grade _ _ _ I Hno).
Qed.

(** C8 (amended). submitAssignment makes its checks in this order and
    reports the first that fails: the caller is not the teacher
    (SelfSubmissionForbidden), the assignment exists (NotFound),
    now < deadline (DeadlinePassed), no prior Submission
    (AlreadySubmitted); ingestion (InvalidProof) and the counter's
    increment come after them.  In particular the teacher gets
    SelfSubmissionForbidden whether or not the assignment exists. *)
Theorem submit_check_order env st id answer proof :
  outcome env (SubmitAssignment id answer proof) st =
    (if msg_sender env =? teacher st then Revert SelfSubmissionForbidden
     else if negb (assignmentExists st id) then Revert NotFound
     else if negb (block_timestamp env <? a_deadline (assignmentAt st id))
       then Revert DeadlinePassed
     else if submissionExists st id (msg_sender env)
       then Revert AlreadySubmitted
     else match verifyInput (msg_sender env) answer proof with
          | None => Revert InvalidProof
          | Some _ =>
              if negb (a_submissionCount (assignmentAt st id) <? MAX_UINT256)
              then Revert Overflow else Ok tt
          end) /\
  (msg_sender env = teacher st ->
     outcome env (SubmitAssignment id answer proof) st
       = Revert SelfSubmissionForbidden).
Proof.
  split; [apply outcome_submit|].
  intros H. rewrite outcome_submit. by rewrite H, N.eqb_refl.
Qed.

End Properties.

Section Lifecycle.
Context `{fhe : FHEVM}.

Lemma Inv_submission_assignment st id s :
  Inv st -> submissionExists st id s = true ->
  assignmentExists st id = true /\ s <> teacher st /\
  s_timestamp (submissionAt st id s) < a_deadline (assignmentAt st id).
Proof.
  intros I Hx. pose proof (submissionAt_stored _ _ _ Hx) as Hs.
  destruct (inv_submission _ I _ _ _ Hs) as (_ & _ & Hne & Hlt).
  split; [|done]. unfold assignmentExists. apply N.ltb_lt. lia.
Qed.

Lemma Inv_grade_submission st id s :
  Inv st -> gradeExists st id s = true ->
  submissionExists st id s = true /\
  a_deadline (assignmentAt st id) <= g_timestamp (gradeAt st id s).
Proof.
  intros I Hx. pose proof (gradeAt_stored _ _ _ Hx) as Hg.
  by destruct (inv_grade _ I _ _ _ Hg) as (_ & ? & ?).
Qed.

Lemma submit_ok_exists env st id answer proof :
  outcome env (SubmitAssignment id answer proof) st = Ok tt ->
  submissionExists (exec env (SubmitAssignment id answer proof) st) id
                   (msg_sender env) = true.
Proof.
  intros Ho. pose proof (exec_ok _ _ _ Ho) as Heff.
  inversion Heff as [|id0 answer0 proof0 h ? ? ? ? ? ? E1 E2| |]; subst.
  unfold submissionExists, submissionAt.
  rewrite (submissionsOf_insert st (afterSubmit env id h st) id _ _ id
             eq_refl).
  destruct (decide (id = id)); [|done]. by rewrite lookup_insert_eq.
Qed.

Lemma grade_ok_exists env st id student score proof :
  outcome env (GradeSubmission id student score proof) st = Ok tt ->
  gradeExists (exec env (GradeSubmission id student score proof) st) id
              student = true.
Proof.
  intros Ho. pose proof (exec_ok _ _ _ Ho) as Heff.
  inversion Heff as [| | |id0 student0 score0 proof0 h ? ? ? ? ? ? E1 E2];
    subst.
  unfold gradeExists, gradeAt.
  rewrite (gradesOf_insert st (afterGrade env id student h st) id _ _ id
             eq_refl).
  destruct (decide (id = id)); [|done]. by rewrite lookup_insert_eq.
Qed.

Lemma resubmission_fails env st id answer proof :
  Inv st -> submissionExists st id (msg_sender env) = true ->
  outcome env (SubmitAssignment id answer proof) st =
    if block_timestamp env <? a_deadline (assignmentAt st id)
    then Revert AlreadySubmitted else Revert DeadlinePassed.
Proof.
  intros I Hx.
  destruct (Inv_submission_assignment _ _ _ I Hx) as (Hex & Hne & _).
  rewrite outcome_submit, Hex, Hx. apply N.eqb_neq in Hne. rewrite Hne. cbn.
  by destruct (block_timestamp env <? a_deadline (assignmentAt st id)).
Qed.

Lemma regrading_fails env st id student score proof :
  Inv st -> gradeExists st id student = true ->
  outcome env (GradeSubmission id student score proof) st =
    if negb (msg_sender env =? teacher st) then Revert Unauthorized
    else if negb (a_deadline (assignmentAt st id) <=? block_timestamp env)
      then Revert GradingNotOpen
    else Revert AlreadyGraded.
Proof.
  intros I Hx.
  destruct (Inv_grade_submission _ _ _ I Hx) as (Hs & _).
  destruct (Inv_submission_assignment _ _ _ I Hs) as (Hex & _).
  rewrite outcome_grade, Hex, Hs, Hx. reflexivity.
Qed.

(** C1 (amended). For every pair (assignmentId, student), at most one
    Submission and at most one Grade are ever stored: a successful
    submitAssignment stores the Submission and a successful
    gradeSubmission stores the Grade; once stored, the record is the same
    in every later state, and every later submitAssignment by the student
    fails, with AlreadySubmitted before the deadline and DeadlinePassed
    from the deadline on, and every later gradeSubmission for the pair
    fails, with AlreadyGraded when the teacher calls at or after the
    deadline, Unauthorized for another caller and GradingNotOpen before
    the deadline. *)
Theorem record_is_permanent st st' id s :
  reachable st -> steps_to st st' ->
  (forall env answer proof,
     outcome env (SubmitAssignment id answer proof) st = Ok tt ->
     submissionExists (exec env (SubmitAssignment id answer proof) st) id
                      (msg_sender env) = true) /\
  (forall env score proof,
     outcome env (GradeSubmission id s score proof) st = Ok tt ->
     gradeExists (exec env (GradeSubmission id s score proof) st) id s
       = true) /\
  (submissionExists st id s = true ->
     submissionAt st' id s = submissionAt st id s /\
     forall env answer proof, msg_sender env = s ->
       outcome env (SubmitAssignment id answer proof) st' =
         if block_timestamp env <? a_deadline (assignmentAt st' id)
         then Revert AlreadySubmitted else Revert DeadlinePassed) /\
  (gradeExists st id s = true ->
     gradeAt st' id s = gradeAt st id s /\
     forall env score proof,
       outcome env (GradeSubmission id s score proof) st' =
         if negb (msg_sender env =? teacher st') then Revert Unauthorized
         else if negb (a_deadline (assignmentAt st' id) <=? block_timestamp env)
           then Revert GradingNotOpen
         else Revert AlreadyGraded).
Proof.
  intros Hr Hs. pose proof (reachable_Inv _ Hr) as I.
  pose proof (steps_Inv _ _ I Hs) as I'.
  destruct (steps_frame _ _ I Hs) as (_ & _ & Hsub & Hgr).
  split; [intros; by apply submit_ok_exists|].
  split; [intros; by apply grade_ok_exists|].
  split.
  - intros Hx. split; [by apply Hsub|].
    intros env answer proof <-. apply resubmission_fails; [done|].
    unfold submissionExists. by rewrite (Hsub _ _ Hx).
  - intros Hx. split; [by apply Hgr|].
    intros env score proof. apply regrading_fails; [done|].
    unfold gradeExists. by rewrite (Hgr _ _ Hx).
Qed.

(** C2 (amended). In every reachable state a Grade for
    (assignmentId, student) exists only if a Submission for the key
    exists, and the Submission is strictly older than the Grade.  With no
    Submission for the key gradeSubmission always fails: with
    Unauthorized for a caller other than the teacher, NotFound for an
    assignment that does not exist, GradingNotOpen before the deadline,
    and NoSubmission otherwise.  No transaction creates a Grade unless
    the Submission was there before the transaction. *)
Theorem grade_needs_earlier_submission st id s :
  reachable st ->
  (gradeExists st id s = true ->
     submissionExists st id s = true /\
     s_timestamp (submissionAt st id s) < g_timestamp (gradeAt st id s)) /\
  (forall env score proof,
     submissionExists st id s = false ->
     outcome env (GradeSubmission id s score proof) st =
       if negb (msg_sender env =? teacher st) then Revert Unauthorized
       else if negb (assignmentExists st id) then Revert NotFound
       else if negb (a_deadline (assignmentAt st id) <=? block_timestamp env)
         then Revert GradingNotOpen
       else Revert NoSubmission) /\
  (forall env c,
     gradeExists st id s = false ->
     gradeExists (exec env c st) id s = true ->
     submissionExists st id s = true).
Proof.
  intros Hr. pose proof (reachable_Inv _ Hr) as I.
  split; [|split].
  - intros Hx. destruct (Inv_grade_submission _ _ _ I Hx) as (Hsx & Hd).
    destruct (Inv_submission_assignment _ _ _ I Hsx) as (_ & _ & Hlt).
    split; [done|]. lia.
  - intros env score proof Hno. rewrite outcome_grade, Hno. reflexivity.
  - intros env c Hno Hyes.
    destruct (exec_cases env c st) as [(e & _ & E)|[_ Heff]].
    { rewrite E in Hyes. congruence. }
    destruct Heff as [title req deadline ? ?|id0 answer proof h ? ? ? ? ? ?
                     |id0 ? ? ? ?|id0 student score proof h ? ? ? ? Hsx ?].
    + change (gradeExists st id s = true) in Hyes. congruence.
    + change (gradeExists st id s = true) in Hyes. congruence.
    + change (gradeExists st id s = true) in Hyes. congruence.
    + unfold gradeExists, gradeAt in Hyes.
      rewrite (gradesOf_insert st (afterGrade env id0 student h st) id0 _ _
                 id eq_refl) in Hyes.
      destruct (decide (id0 = id)) as [<-|].
      * destruct (decide (student = s)) as [<-|Hne]; [done|].
        rewrite lookup_insert_ne in Hyes by done.
        unfold gradeExists, gradeAt in Hno. congruence.
      * unfold gradeExists, gradeAt in Hno. congruence.
Qed.

(** C4 (amended). For an existing assignment in a reachable state, a
    caller other than its creator and without a prior Submission:
    submitAssignment fails with DeadlinePassed at every now >= deadline,
    and at every now < deadline it succeeds when ingestion accepts the
    proof and fails with InvalidProof when it does not; the boundary is
    sharp: now = deadline fails, now = deadline - 1 is before the
    deadline. *)
Theorem submit_deadline_boundary st env id answer proof :
  reachable st ->
  assignmentExists st id = true ->
  msg_sender env <> a_teacher (assignmentAt st id) ->
  submissionExists st id (msg_sender env) = false ->
  (a_deadline (assignmentAt st id) <= block_timestamp env ->
     outcome env (SubmitAssignment id answer proof) st
       = Revert DeadlinePassed) /\
  (block_timestamp env < a_deadline (assignmentAt st id) ->
     outcome env (SubmitAssignment id answer proof) st =
       match verifyInput (msg_sender env) answer proof with
       | Some _ => Ok tt
       | None => Revert InvalidProof
       end) /\
  (block_timestamp env = a_deadline (assignmentAt st id) ->
     outcome env (SubmitAssignment id answer proof) st
       = Revert DeadlinePassed) /\
  (block_timestamp env = a_deadline (assignmentAt st id) - 1 ->
     outcome env (SubmitAssignment id answer proof) st =
       match verifyInput (msg_sender env) answer proof with
       | Some _ => Ok tt
       | None => Revert InvalidProof
       end).
Proof.
  intros Hr Hex Hne Hno. pose proof (reachable_Inv _ Hr) as I.
  rewrite (Inv_creator _ _ I Hex) in Hne. apply N.eqb_neq in Hne.
  assert (0 < a_deadline (assignmentAt st id)) as Hpos
    by by apply N.ltb_lt.
  assert (a_deadline (assignmentAt st id) <= block_timestamp env ->
    outcome env (SubmitAssignment id answer proof) st
      = Revert DeadlinePassed) as Hlate.
  { intros Hle. rewrite outcome_submit, Hne, Hex. cbn.
    apply N.ltb_ge in Hle. by rewrite Hle. }
  assert (block_timestamp env < a_deadline (assignmentAt st id) ->
    outcome env (SubmitAssignment id answer proof) st =
      match verifyInput (msg_sender env) answer proof with
      | Some _ => Ok tt
      | None => Revert InvalidProof
      end) as Hearly.
  { intros Hlt. rewrite outcome_submit, Hne, Hex, Hno. cbn.
    apply N.ltb_lt in Hlt. rewrite Hlt. cbn.
    by rewrite (Inv_no_overflow _ _ I). }
  split; [done|]. split; [done|]. split.
  - intros E. apply Hlate. lia.
  - intros E. apply Hearly. lia.
Qed.

(** Once a Grade exists for a pair, no gradeSubmission for the pair
    succeeds in that state or in any state that follows it. *)
Lemma graded_never_regraded st st' id student env score proof :
  Inv st -> gradeExists st id student = true -> steps_to st st' ->
  outcome env (GradeSubmission id student score proof) st' <> Ok tt.
Proof.
  intros I Hx Hs.
  pose proof (steps_Inv _ _ I Hs) as I'.
  destruct (steps_frame _ _ I Hs) as (_ & _ & _ & Hgr).
  assert (gradeExists st' id student = true) as Hx'.
  { unfold gradeExists. by rewrite (Hgr id student Hx). }
  rewrite (regrading_fails _ _ _ _ _ _ I' Hx').
  repeat match goal with
         | |- context [if ?c then _ else _] => destruct c; try done
         end.
Qed.

(** C5 (amended). gradeSubmission called by the creator of an existing
    assignment fails with GradingNotOpen at every now < deadline.  At
    every now >= deadline, for a student with a Submission and no Grade,
    it succeeds when ingestion accepts the proof and fails with
    InvalidProof when it does not.  It succeeds at most once per pair: a
    success finds no Grade for the pair, and after it no gradeSubmission
    for the pair succeeds in any later state, whatever transactions come
    in between; more generally, whenever a Grade exists for the pair,
    gradeSubmission for it fails in that state and in every state that
    follows.  The outcome is the same whatever the value of the
    isGrading latch. *)
Theorem grade_deadline_boundary st env id student score proof :
  reachable st ->
  assignmentExists st id = true ->
  msg_sender env = a_teacher (assignmentAt st id) ->
  (block_timestamp env < a_deadline (assignmentAt st id) ->
     outcome env (GradeSubmission id student score proof) st
       = Revert GradingNotOpen) /\
  (a_deadline (assignmentAt st id) <= block_timestamp env ->
   submissionExists st id student = true ->
   gradeExists st id student = false ->
     outcome env (GradeSubmission id student score proof) st =
       match verifyInput (msg_sender env) score proof with
       | Some _ => Ok tt
       | None => Revert InvalidProof
       end) /\
  (outcome env (GradeSubmission id student score proof) st = Ok tt ->
   gradeExists st id student = false /\
   forall st' env' score' proof',
     steps_to (exec env (GradeSubmission id student score proof) st) st' ->
     outcome env' (GradeSubmission id student score' proof') st' <> Ok tt) /\
  (gradeExists st id student = true ->
   forall st' env' score' proof',
     steps_to st st' ->
     outcome env' (GradeSubmission id student score' proof') st' <> Ok tt) /\
  (forall b,
     outcome env (GradeSubmission id student score proof)
             (set_assignment id (with_isGrading b (assignmentAt st id)) st)
     = outcome env (GradeSubmission id student score proof) st).
Proof.
  intros Hr Hex Hc. pose proof (reachable_Inv _ Hr) as I.
  rewrite (Inv_creator _ _ I Hex) in Hc.
  split; [|split; [|split; [|split]]].
  - intros Hlt. rewrite outcome_grade, Hc, N.eqb_refl, Hex. cbn.
    apply N.leb_gt in Hlt. by rewrite Hlt.
  - intros Hle Hsx Hgx. rewrite outcome_grade, Hc, N.eqb_refl, Hex, Hsx, Hgx.
    cbn. apply N.leb_le in Hle. by rewrite Hle.
  - intros Hok. split.
    { destruct (gradeExists st id student) eqn:Hgx; [|done].
      by destruct (graded_never_regraded st st id student env score proof I
                     Hgx (steps_refl st)). }
    intros st' env' score' proof' Hs.
    pose proof (grade_ok_exists _ _ _ _ _ _ Hok) as Hx.
    assert (Inv (exec env (GradeSubmission id student score proof) st)) as I'.
    { destruct (exec_cases env (GradeSubmission id student score proof) st)
        as [(e & _ & ->)|[_ Heff]]; [done|].
      inversion Heff; subst. by apply Inv_afterGrade. }
    by apply (graded_never_regraded _ _ _ _ _ _ _ I' Hx Hs).
  - intros Hgx st' env' score' proof' Hs.
    by apply (graded_never_regraded _ _ _ _ _ _ _ I Hgx Hs).
  - intros b. rewrite !outcome_grade.
    set (st2 := set_assignment id (with_isGrading b (assignmentAt st id)) st).
    assert (a_deadline (assignmentAt st2 id) = a_deadline (assignmentAt st id))
      as Hd.
    { rewrite (assignmentAt_insert st st2 id _ id eq_refl).
      by destruct (decide (id = id)). }
    unfold assignmentExists. rewrite Hd. reflexivity.
Qed.

End Lifecycle.

(** ** A worked scenario

    The scenario of the test suite, run against a stand-in for the
    encrypted-value store: the teacher (address 1) deploys and creates an
    assignment due at 1100, a student (address 2) submits at 1050, the
    teacher grades at 1150. *)

Section Scenario.
#[local] Existing Instance mockFHEVM.

Ltac solve_wf :=
  repeat split; first [reflexivity | vm_compute; discriminate].

Lemma reachable_from_next `{fhe : FHEVM} deployer st env c :
  reachable_from deployer st -> wf_env env -> wf_call c ->
  reachable_from deployer (exec env c st).
Proof.
  intros (env0 & Hwf & Hd & Hs) He Hc. exists env0.
  split; [done|]. split; [done|]. by apply steps_next.
Defined.

Lemma deployed_reachable : reachable_from 1 deployed.
Proof.
  exists (mkEnv 1 900). split; [solve_wf|]. split; [reflexivity|].
  apply steps_refl.
Defined.

Lemma created_reachable : reachable_from 1 created.
Proof.
  apply reachable_from_next; [apply deployed_reachable|solve_wf|solve_wf].
Defined.

Lemma submitted_reachable : reachable_from 1 submitted.
Proof.
  apply reachable_from_next; [apply created_reachable|solve_wf|solve_wf].
Defined.

Lemma graded_reachable : reachable_from 1 graded.
Proof.
  apply reachable_from_next; [apply submitted_reachable|solve_wf|solve_wf].
Defined.

Lemma reachable_intro `{fhe : FHEVM} deployer st :
  reachable_from deployer st -> reachable st.
Proof. intros H. by exists deployer. Defined.

(** The scenario of the spec, step by step. *)
Example scenario_outcomes :
  outcome (mkEnv 2 1050) (SubmitAssignment 0 42 goodProof) created = Ok tt /\
  a_submissionCount (assignmentAt submitted 0) = 1 /\
  outcome (mkEnv 2 1060) (SubmitAssignment 0 42 goodProof) submitted
    = Revert AlreadySubmitted /\
  outcome (mkEnv 1 1090) (GradeSubmission 0 2 85 goodProof) submitted
    = Revert GradingNotOpen /\
  outcome (mkEnv 1 1150) (GradeSubmission 0 2 85 goodProof) submitted
    = Ok tt /\
  outcome (mkEnv 1 1151) (GradeSubmission 0 2 85 goodProof) graded
    = Revert AlreadyGraded /\
  outcome (mkEnv 1 1050) (SubmitAssignment 0 42 goodProof) created
    = Revert SelfSubmissionForbidden.
Proof. repeat split; reflexivity. Qed.

(** The expectations of the repository's test suite. *)
Example test_suite_expectations :
  teacher deployed = 1 /\
  snd (getAssignment 0 (mkEnv 2 1010) created)
    = Ok ("Essay", "Answer the question", 1100, 0, false) /\
  revert_message
    (outcome (mkEnv 1 1050) (SubmitAssignment 0 42 goodProof) created)
    = Some "Teacher cannot submit assignments" /\
  snd (hasSubmitted 0 2 (mkEnv 2 1060) submitted) = Ok true /\
  a_submissionCount (assignmentAt submitted 0) = 1 /\
  revert_message
    (outcome (mkEnv 2 1060) (SubmitAssignment 0 42 goodProof) submitted)
    = Some "Already submitted" /\
  snd (hasGrade 0 2 (mkEnv 2 1160) graded) = Ok true /\
  snd (getGrade 0 2 (mkEnv 2 1160) graded) = Ok (85, 1150, true) /\
  a_submissionCount (assignmentAt submittedTwice 0) = 2.
Proof. repeat split; reflexivity. Qed.

(** C9, on a submission whose proof is rejected. *)
Lemma failed_call_changes_nothing_witness :
  outcome (mkEnv 2 1050) (SubmitAssignment 0 42 badProof) created
    = Revert InvalidProof /\
  exec (mkEnv 2 1050) (SubmitAssignment 0 42 badProof) created = created.
Proof.
  split; [reflexivity|].
  apply (failed_call_changes_nothing (mkEnv 2 1050)
           (SubmitAssignment 0 42 badProof) created InvalidProof).
  reflexivity.
Defined.

(** C6, for the teacher submitting to the assignment just created. *)
Lemma creator_cannot_submit_witness :
  reachable created /\
  assignmentExists created 0 = true /\
  msg_sender (mkEnv 1 1050) = a_teacher (assignmentAt created 0) /\
  outcome (mkEnv 1 1050) (SubmitAssignment 0 42 goodProof) created
    = Revert SelfSubmissionForbidden.
Proof.
  split; [exact (reachable_intro 1 created created_reachable)|].
  split; [reflexivity|]. split; [reflexivity|].
  apply (creator_cannot_submit created 0 (mkEnv 1 1050) 42 goodProof);
    [exact (reachable_intro 1 created created_reachable)
    |reflexivity|reflexivity].
Defined.

(** C10, after a submission. *)
Lemma single_teacher_witness :
  reachable_from 1 submitted /\ teacher submitted = 1.
Proof.
  split; [exact submitted_reachable|].
  apply (single_teacher 1 submitted). exact submitted_reachable.
Defined.

(** C3, for the student's submission: it is accepted and takes the
    count from 0 to 1. *)
Lemma submissionCount_counts_submitters_witness :
  reachable created /\
  acceptedSubmission (mkEnv 2 1050) (SubmitAssignment 0 42 goodProof)
                     created 0 /\
  a_submissionCount (assignmentAt created 0) = 0 /\
  a_submissionCount
    (assignmentAt
       (exec (mkEnv 2 1050) (SubmitAssignment 0 42 goodProof) created) 0)
    = a_submissionCount (assignmentAt created 0) + 1 /\
  countSubmitters
    (exec (mkEnv 2 1050) (SubmitAssignment 0 42 goodProof) created) 0 = 1.
Proof.
  assert (acceptedSubmission (mkEnv 2 1050)
            (SubmitAssignment 0 42 goodProof) created 0) as Hacc.
  { exists 42, goodProof. split; reflexivity. }
  split; [exact (reachable_intro 1 created created_reachable)|].
  split; [exact Hacc|]. split; [reflexivity|]. split; [|reflexivity].
  exact (proj1 (proj2 (proj2
           (submissionCount_counts_submitters created 0 (mkEnv 2 1050)
              (SubmitAssignment 0 42 goodProof)
              (reachable_intro 1 created created_reachable)))) Hacc).
Defined.

(** C7: in the freshly deployed contract both getters answer with the
    zero record instead of failing. *)
Lemma getters_do_not_fail :
  submissionExists deployed 0 2 = false /\
  gradeExists deployed 0 2 = false /\
  snd (getSubmission 0 2 (mkEnv 2 950) deployed) = Ok (0, 0, false) /\
  snd (getGrade 0 2 (mkEnv 2 950) deployed) = Ok (0, 0, false) /\
  snd (getSubmission 0 2 (mkEnv 2 950) deployed) <> Revert NotFound /\
  snd (getGrade 0 2 (mkEnv 2 950) deployed) <> Revert NotFound.
Proof. repeat split; first [reflexivity | discriminate]. Qed.

Lemma getters_return_default_witness :
  reachable deployed /\
  getSubmission 0 2 (mkEnv 2 950) deployed = (deployed, Ok (0, 0, false)).
Proof.
  split; [exact (reachable_intro 1 deployed deployed_reachable)|].
  apply (getters_return_default deployed (mkEnv 2 950) 0 2);
    [exact (reachable_intro 1 deployed deployed_reachable)|reflexivity].
Defined.

(** C8: the teacher submitting to an assignment that does not exist is
    told SelfSubmissionForbidden, not NotFound. *)
Lemma teacher_on_missing_assignment :
  assignmentExists deployed 7 = false /\
  msg_sender (mkEnv 1 950) = teacher deployed /\
  outcome (mkEnv 1 950) (SubmitAssignment 7 42 goodProof) deployed
    = Revert SelfSubmissionForbidden /\
  outcome (mkEnv 1 950) (SubmitAssignment 7 42 goodProof) deployed
    <> Revert NotFound.
Proof. repeat split; first [reflexivity | discriminate]. Qed.

Lemma submit_check_order_witness :
  outcome (mkEnv 1 950) (SubmitAssignment 7 42 goodProof) deployed
    = Revert SelfSubmissionForbidden.
Proof.
  apply (submit_check_order (mkEnv 1 950) deployed 7 42 goodProof).
  reflexivity.
Defined.

(** C1: the student's second submission, made at the deadline, is
    refused with DeadlinePassed, not AlreadySubmitted. *)
Lemma resubmission_at_deadline :
  outcome (mkEnv 2 1050) (SubmitAssignment 0 42 goodProof) created = Ok tt /\
  submitted = exec (mkEnv 2 1050) (SubmitAssignment 0 42 goodProof) created /\
  outcome (mkEnv 2 1100) (SubmitAssignment 0 42 goodProof) submitted
    = Revert DeadlinePassed /\
  outcome (mkEnv 2 1100) (SubmitAssignment 0 42 goodProof) submitted
    <> Revert AlreadySubmitted.
Proof. repeat split; first [reflexivity | discriminate]. Qed.

Lemma record_is_permanent_witness :
  reachable submitted /\ steps_to submitted graded /\
  submissionExists submitted 0 2 = true /\
  submissionAt graded 0 2 = submissionAt submitted 0 2.
Proof.
  split; [exact (reachable_intro 1 submitted submitted_reachable)|].
  assert (steps_to submitted graded) as Hs.
  { apply steps_next; [apply steps_refl|solve_wf|solve_wf]. }
  split; [exact Hs|]. split; [reflexivity|].
  apply (record_is_permanent submitted graded 0 2);
    [exact (reachable_intro 1 submitted submitted_reachable)|exact Hs
    |reflexivity].
Defined.

(** C2: grading a student who never submitted, before the deadline, is
    refused with GradingNotOpen, not NoSubmission. *)
Lemma grading_absent_submission_early :
  submissionExists created 0 2 = false /\
  outcome (mkEnv 1 1050) (GradeSubmission 0 2 85 goodProof) created
    = Revert GradingNotOpen /\
  outcome (mkEnv 1 1050) (GradeSubmission 0 2 85 goodProof) created
    <> Revert NoSubmission.
Proof. repeat split; first [reflexivity | discriminate]. Qed.

Lemma grade_needs_earlier_submission_witness :
  reachable graded /\ gradeExists graded 0 2 = true /\
  submissionExists graded 0 2 = true /\
  s_timestamp (submissionAt graded 0 2) < g_timestamp (gradeAt graded 0 2).
Proof.
  split; [exact (reachable_intro 1 graded graded_reachable)|].
  split; [reflexivity|].
  apply (grade_needs_earlier_submission graded 0 2);
    [exact (reachable_intro 1 graded graded_reachable)|reflexivity].
Defined.

(** C4: before the deadline, a first submission whose proof ingestion
    rejects does not succeed. *)
Lemma early_submission_with_bad_proof :
  assignmentExists created 0 = true /\
  msg_sender (mkEnv 2 1050) <> a_teacher (assignmentAt created 0) /\
  submissionExists created 0 2 = false /\
  block_timestamp (mkEnv 2 1050) < a_deadline (assignmentAt created 0) /\
  outcome (mkEnv 2 1050) (SubmitAssignment 0 42 badProof) created
    = Revert InvalidProof /\
  outcome (mkEnv 2 1050) (SubmitAssignment 0 42 badProof) created <> Ok tt.
Proof. repeat split; first [reflexivity | discriminate]. Qed.

Lemma submit_deadline_boundary_witness :
  reachable created /\
  assignmentExists created 0 = true /\
  msg_sender (mkEnv 2 1099) <> a_teacher (assignmentAt created 0) /\
  submissionExists created 0 (msg_sender (mkEnv 2 1099)) = false /\
  outcome (mkEnv 2 1099) (SubmitAssignment 0 42 goodProof) created = Ok tt.
Proof.
  split; [exact (reachable_intro 1 created created_reachable)|].
  split; [reflexivity|]. split; [discriminate|]. split; [reflexivity|].
  refine (proj2 (proj2 (proj2
            (submit_deadline_boundary created (mkEnv 2 1099) 0 42 goodProof
               _ _ _ _))) _);
    [exact (reachable_intro 1 created created_reachable)
    |reflexivity|discriminate|reflexivity|reflexivity].
Defined.

(** C5: at the deadline or later, grading an ungraded submission with a
    proof that ingestion rejects does not succeed. *)
Lemma late_grading_with_bad_proof :
  assignmentExists submitted 0 = true /\
  msg_sender (mkEnv 1 1150) = a_teacher (assignmentAt submitted 0) /\
  a_deadline (assignmentAt submitted 0) <= block_timestamp (mkEnv 1 1150) /\
  submissionExists submitted 0 2 = true /\
  gradeExists submitted 0 2 = false /\
  outcome (mkEnv 1 1150) (GradeSubmission 0 2 85 badProof) submitted
    = Revert InvalidProof /\
  outcome (mkEnv 1 1150) (GradeSubmission 0 2 85 badProof) submitted
    <> Ok tt.
Proof.
  repeat split; first [reflexivity | discriminate | vm_compute; discriminate].
Qed.

(** C5: before the deadline the teacher's grading is refused; at 1150
    it succeeds, and after a later startGrading a second grading of the
    pair is refused. *)
Lemma grade_deadline_boundary_witness :
  reachable submitted /\
  assignmentExists submitted 0 = true /\
  msg_sender (mkEnv 1 1090) = a_teacher (assignmentAt submitted 0) /\
  outcome (mkEnv 1 1090) (GradeSubmission 0 2 85 goodProof) submitted
    = Revert GradingNotOpen /\
  outcome (mkEnv 1 1150) (GradeSubmission 0 2 85 goodProof) submitted
    = Ok tt /\
  outcome (mkEnv 1 1200) (GradeSubmission 0 2 90 goodProof)
          (exec (mkEnv 1 1160) (StartGrading 0) graded) <> Ok tt.
Proof.
  split; [exact (reachable_intro 1 submitted submitted_reachable)|].
  split; [reflexivity|]. split; [reflexivity|].
  split.
  { refine (proj1
              (grade_deadline_boundary submitted (mkEnv 1 1090) 0 2 85
                 goodProof _ _ _) _);
      [exact (reachable_intro 1 submitted submitted_reachable)
      |reflexivity|reflexivity|reflexivity]. }
  split; [reflexivity|].
  refine (proj2 (proj1 (proj2 (proj2
            (grade_deadline_boundary submitted (mkEnv 1 1150) 0 2 85
               goodProof _ _ _))) _) _ (mkEnv 1 1200) 90 goodProof _);
    [exact (reachable_intro 1 submitted submitted_reachable)
    |reflexivity|reflexivity|reflexivity|].
  apply (steps_next graded graded (mkEnv 1 1160) (StartGrading 0));
    [apply steps_refl|solve_wf|solve_wf].
Defined.

End Scenario.

(** ** The log and the allowances *)

Section LedgerProofs.
Context `{fhe : FHEVM}.

Lemma events_exec env c st :
  events (exec env c st) = events st ++ emitted env c st.
Proof.
  unfold emitted.
  destruct (exec_cases env c st) as [(e & Ho & ->)|[Ho Heff]].
  - rewrite Ho. by rewrite app_nil_r.
  - rewrite Ho. destruct Heff; try reflexivity.
    cbn. by rewrite app_nil_r.
Qed.

Lemma acl_exec env c st :
  acl (exec env c st) = granted env c st ∪ acl st.
Proof.
  unfold granted.
  destruct (exec_cases env c st) as [(e & Ho & ->)|[Ho Heff]].
  - rewrite Ho. by rewrite (left_id_L ∅ (∪)).
  - rewrite Ho.
    destruct Heff as [title req deadline _ _|id answer proof h Hv _ _ _ _ _
                     |id _ _ _ _|id student score proof h Hv _ _ _ _ _].
    + cbn. by rewrite (left_id_L ∅ (∪)).
    + rewrite Hv. cbn. apply set_eq. intros x.
      rewrite !elem_of_union, !elem_of_singleton. tauto.
    + cbn. by rewrite (left_id_L ∅ (∪)).
    + rewrite Hv. cbn. apply set_eq. intros x.
      rewrite !elem_of_union, !elem_of_singleton. tauto.
Qed.

Lemma Ledger_constructor env : Ledger (constructor env).
Proof.
  split.
  - intros id a H. cbn in H. by rewrite lookup_empty in H.
  - intros id s r H. unfold submissionsOf in H. cbn in H.
    rewrite lookup_empty in H. cbn in H. by rewrite lookup_empty in H.
  - cbn. unfold MAX_UINT256. lia.
  - reflexivity.
  - intros id. split; [constructor|]. intros s.
    unfold submissionEvents, submissionsOf. cbn.
    rewrite lookup_empty. cbn. rewrite lookup_empty.
    split; [by intros ?%elem_of_nil|by intros [? ?]].
  - intros id. split; [constructor|]. intros s.
    unfold gradeEvents, gradesOf. cbn.
    rewrite lookup_empty. cbn. rewrite lookup_empty.
    split; [by intros ?%elem_of_nil|by intros [? ?]].
  - intros id s r H. unfold submissionsOf in H. cbn in H.
    rewrite lookup_empty in H. cbn in H. by rewrite lookup_empty in H.
  - intros id s g H. unfold gradesOf in H. cbn in H.
    rewrite lookup_empty in H. cbn in H. by rewrite lookup_empty in H.
  - intros h account H. cbn in H. set_solver.
Qed.

Lemma create_ok_inv env st title requirements deadline :
  outcome env (CreateAssignment title requirements deadline) st = Ok tt ->
  msg_sender env = teacher st /\ block_timestamp env < deadline /\
  title <> EmptyString /\ totalAssignments st < MAX_UINT256.
Proof.
  rewrite outcome_create.
  destruct (msg_sender env =? teacher st) eqn:E1; [|discriminate].
  destruct (block_timestamp env <? deadline) eqn:E2; [|discriminate].
  destruct (0 <? N.of_nat (String.length title)) eqn:E3; [|discriminate].
  destruct (totalAssignments st <? MAX_UINT256) eqn:E4; [|discriminate].
  intros _. apply N.eqb_eq in E1. apply N.ltb_lt in E2, E3, E4.
  repeat split; try done. intros ->. cbn in E3. lia.
Qed.

Lemma elem_of_snoc_fresh (l : list N) (x s : N) :
  s ∈ l ++ [x] <-> s ∈ l \/ s = x.
Proof. rewrite elem_of_app, list_elem_of_singleton. done. Qed.

Lemma NoDup_snoc_fresh (l : list N) (x : N) :
  NoDup l -> x ∉ l -> NoDup (l ++ [x]).
Proof.
  intros Hl Hx. apply NoDup_app. split; [done|]. split.
  - intros y Hy ->%list_elem_of_singleton. done.
  - apply NoDup_singleton.
Qed.

Lemma Ledger_afterCreate env title requirements deadline st :
  Inv st -> Ledger st -> totalAssignments st < MAX_UINT256 ->
  Ledger (afterCreate env title requirements deadline st).
Proof.
  intros I L Htot.
  set (st' := afterCreate env title requirements deadline st).
  assert (forall id, submissionsOf st' id = submissionsOf st id) as HS
    by (intros; by apply submissionsOf_same).
  assert (forall id, gradesOf st' id = gradesOf st id) as HG
    by (intros; by apply gradesOf_same).
  split.
  - intros id a H. change (assignments st') with
      (<[totalAssignments st := mkAssignment (totalAssignments st) title
           requirements deadline (msg_sender env) 0 false]> (assignments st))
      in H.
    destruct (decide (totalAssignments st = id)) as [<-|Hne].
    + rewrite lookup_insert_eq in H. by injection H as <-.
    + rewrite lookup_insert_ne in H by done. by apply (led_id _ L).
  - intros id s r H. rewrite HS in H. by apply (led_student _ L id).
  - change (totalAssignments st') with (totalAssignments st + 1). lia.
  - change (totalAssignments st') with (totalAssignments st + 1).
    unfold creationEvents.
    change (events st') with
      (events st ++ [AssignmentCreated (totalAssignments st) (msg_sender env)
                       title deadline]).
    rewrite omap_app. cbn.
    change (omap createdOf (events st)) with (creationEvents st).
    rewrite (led_created _ L).
    replace (N.to_nat (totalAssignments st + 1))
      with (S (N.to_nat (totalAssignments st))) by lia.
    rewrite seq_S, fmap_app. cbn. by rewrite N2Nat.id.
  - intros id. unfold submissionEvents.
    change (events st') with
      (events st ++ [AssignmentCreated (totalAssignments st) (msg_sender env)
                       title deadline]).
    rewrite omap_app, app_nil_r, HS. apply (led_submitted _ L).
  - intros id. unfold gradeEvents.
    change (events st') with
      (events st ++ [AssignmentCreated (totalAssignments st) (msg_sender env)
                       title deadline]).
    rewrite omap_app, app_nil_r, HG. apply (led_graded _ L).
  - intros id s r H. rewrite HS in H. by apply (led_acl_submission _ L id s).
  - intros id s g H. rewrite HG in H. by apply (led_acl_grade _ L id s).
  - intros h account H.
    destruct (led_acl_only _ L h account H)
      as [(id & s & r & ? & ? & ?)|(id & s & g & ? & ? & ?)].
    + left. exists id, s, r. by rewrite HS.
    + right. exists id, s, g. by rewrite HG.
Qed.

Lemma Ledger_afterSubmit env id h st :
  Inv st -> Ledger st ->
  assignmentExists st id = true ->
  submissionExists st id (msg_sender env) = false ->
  Ledger (afterSubmit env id h st).
Proof.
  intros I L Hex Hno.
  pose proof (assignmentAt_stored _ _ Hex) as Hst.
  pose proof (Inv_absent_submission _ _ _ I Hno) as Hfresh.
  set (new := mkSubmission (msg_sender env) h (block_timestamp env) true).
  set (st' := afterSubmit env id h st).
  assert (forall id', submissionsOf st' id' =
            if decide (id = id')
            then <[msg_sender env := new]> (submissionsOf st id)
            else submissionsOf st id') as HS
    by (intros; by apply submissionsOf_insert).
  assert (forall id', gradesOf st' id' = gradesOf st id') as HG
    by (intros; by apply gradesOf_same).
  assert (acl st' = {[ (h, teacher st) ]} ∪ ({[ (h, this) ]} ∪ acl st)) as HA
    by reflexivity.
  assert (events st' = events st ++
            [SubmissionCreated id (msg_sender env) (block_timestamp env)])
    as HE by reflexivity.
  assert (forall id' s r, submissionsOf st id' !! s = Some r ->
                          submissionsOf st' id' !! s = Some r) as Hkeep.
  { intros id' s r H. rewrite HS.
    destruct (decide (id = id')) as [<-|]; [|done].
    destruct (decide (msg_sender env = s)) as [<-|]; [congruence|].
    by rewrite lookup_insert_ne. }
  split.
  - intros id' a H. change (assignments st') with
      (<[id := with_submissionCount
                 (a_submissionCount (assignmentAt st id) + 1)
                 (assignmentAt st id)]> (assignments st)) in H.
    destruct (decide (id = id')) as [<-|Hne].
    + rewrite lookup_insert_eq in H. injection H as <-.
      exact (led_id _ L id _ Hst).
    + rewrite lookup_insert_ne in H by done. by apply (led_id _ L).
  - intros id' s r H. rewrite HS in H.
    destruct (decide (id = id')) as [<-|]; [|by apply (led_student _ L id')].
    destruct (decide (msg_sender env = s)) as [<-|].
    + rewrite lookup_insert_eq in H. by injection H as <-.
    + rewrite lookup_insert_ne in H by done. by apply (led_student _ L id).
  - apply (led_total _ L).
  - unfold creationEvents. rewrite HE, omap_app, app_nil_r.
    apply (led_created _ L).
  - intros id'. unfold submissionEvents. rewrite HE, omap_app, HS. cbn.
    destruct (led_submitted _ L id') as [Hnd Hin].
    destruct (decide (id = id')) as [<-|]; [|by rewrite app_nil_r].
    change (omap (submitterOf id) (events st)) with (submissionEvents st id).
    split.
    + apply NoDup_snoc_fresh; [done|]. rewrite Hin, Hfresh. by intros [? ?].
    + intros s. rewrite elem_of_snoc_fresh, Hin.
      rewrite lookup_insert_is_Some. split.
      * intros [? | ->]; [|by left].
        destruct (decide (msg_sender env = s)); [by left|by right].
      * intros [->|[_ ?]]; [by right|by left].
  - intros id'. unfold gradeEvents. rewrite HE, omap_app, app_nil_r, HG.
    apply (led_graded _ L).
  - intros id' s r H. rewrite HA. change (teacher st') with (teacher st).
    rewrite HS in H. destruct (decide (id = id')) as [<-|].
    + destruct (decide (msg_sender env = s)) as [<-|].
      * rewrite lookup_insert_eq in H. injection H as <-. cbn. set_solver.
      * rewrite lookup_insert_ne in H by done.
        destruct (led_acl_submission _ L _ _ _ H). set_solver.
    + destruct (led_acl_submission _ L _ _ _ H). set_solver.
  - intros id' s g H. rewrite HA. rewrite HG in H.
    destruct (led_acl_grade _ L _ _ _ H). set_solver.
  - intros h' account H. rewrite HA in H.
    change (teacher st') with (teacher st).
    assert (submissionsOf st' id !! msg_sender env = Some new) as Hnew.
    { rewrite HS. destruct (decide (id = id)); [|done].
      by rewrite lookup_insert_eq. }
    apply elem_of_union in H as [H|H].
    { apply elem_of_singleton in H. injection H as -> ->.
      left. exists id, (msg_sender env), new. split; [done|].
      split; [done|]. by right. }
    apply elem_of_union in H as [H|H].
    { apply elem_of_singleton in H. injection H as -> ->.
      left. exists id, (msg_sender env), new. split; [done|].
      split; [done|]. by left. }
    destruct (led_acl_only _ L h' account H)
      as [(id' & s & r & ? & ? & ?)|(id' & s & g & ? & ? & ?)].
    + left. exists id', s, r. split; [by apply Hkeep|done].
    + right. exists id', s, g. by rewrite HG.
Qed.

Lemma Ledger_afterStart id st :
  Ledger st -> assignmentExists st id = true -> Ledger (afterStart id st).
Proof.
  intros L Hex. pose proof (assignmentAt_stored _ _ Hex) as Hst.
  set (st' := afterStart id st).
  split.
  - intros id' a H. change (assignments st') with
      (<[id := with_isGrading true (assignmentAt st id)]> (assignments st))
      in H.
    destruct (decide (id = id')) as [<-|Hne].
    + rewrite lookup_insert_eq in H. injection H as <-.
      exact (led_id _ L id _ Hst).
    + rewrite lookup_insert_ne in H by done. by apply (led_id _ L).
  - apply (led_student _ L).
  - apply (led_total _ L).
  - apply (led_created _ L).
  - apply (led_submitted _ L).
  - apply (led_graded _ L).
  - apply (led_acl_submission _ L).
  - apply (led_acl_grade _ L).
  - apply (led_acl_only _ L).
Qed.

Lemma Ledger_afterGrade env id student h st :
  Inv st -> Ledger st ->
  gradeExists st id student = false ->
  Ledger (afterGrade env id student h st).
Proof.
  intros I L Hno.
  pose proof (Inv_absent_grade _ _ _ I Hno) as Hfresh.
  set (new := mkGrade h (block_timestamp env) true).
  set (st' := afterGrade env id student h st).
  assert (forall id', gradesOf st' id' =
            if decide (id = id') then <[student := new]> (gradesOf st id)
            else gradesOf st id') as HG
    by (intros; by apply gradesOf_insert).
  assert (acl st' = {[ (h, student) ]} ∪ ({[ (h, this) ]} ∪ acl st)) as HA
    by reflexivity.
  assert (events st' = events st ++
            [GradeAssigned id student (block_timestamp env)]) as HE
    by reflexivity.
  assert (forall id' s g, gradesOf st id' !! s = Some g ->
                          gradesOf st' id' !! s = Some g) as Hkeep.
  { intros id' s g H. rewrite HG.
    destruct (decide (id = id')) as [<-|]; [|done].
    destruct (decide (student = s)) as [<-|]; [congruence|].
    by rewrite lookup_insert_ne. }
  split.
  - apply (led_id _ L).
  - apply (led_student _ L).
  - apply (led_total _ L).
  - unfold creationEvents. rewrite HE, omap_app, app_nil_r.
    apply (led_created _ L).
  - intros id'. unfold submissionEvents. rewrite HE, omap_app, app_nil_r.
    apply (led_submitted _ L).
  - intros id'. unfold gradeEvents. rewrite HE, omap_app, HG. cbn.
    destruct (led_graded _ L id') as [Hnd Hin].
    destruct (decide (id = id')) as [<-|]; [|by rewrite app_nil_r].
    change (omap (gradedOf id) (events st)) with (gradeEvents st id).
    split.
    + apply NoDup_snoc_fresh; [done|]. rewrite Hin, Hfresh. by intros [? ?].
    + intros s. rewrite elem_of_snoc_fresh, Hin.
      rewrite lookup_insert_is_Some. split.
      * intros [? | ->]; [|by left].
        destruct (decide (student = s)); [by left|by right].
      * intros [->|[_ ?]]; [by right|by left].
  - intros id' s r H. rewrite HA.
    destruct (led_acl_submission _ L _ _ _ H). set_solver.
  - intros id' s g H. rewrite HA. rewrite HG in H.
    destruct (decide (id = id')) as [<-|].
    + destruct (decide (student = s)) as [<-|].
      * rewrite lookup_insert_eq in H. injection H as <-. cbn. set_solver.
      * rewrite lookup_insert_ne in H by done.
        destruct (led_acl_grade _ L _ _ _ H). set_solver.
    + destruct (led_acl_grade _ L _ _ _ H). set_solver.
  - intros h' account H. rewrite HA in H.
    assert (gradesOf st' id !! student = Some new) as Hnew.
    { rewrite HG. destruct (decide (id = id)); [|done].
      by rewrite lookup_insert_eq. }
    apply elem_of_union in H as [H|H].
    { apply elem_of_singleton in H. injection H as -> ->.
      right. exists id, student, new. split; [done|].
      split; [done|]. by right. }
    apply elem_of_union in H as [H|H].
    { apply elem_of_singleton in H. injection H as -> ->.
      right. exists id, student, new. split; [done|].
      split; [done|]. by left. }
    destruct (led_acl_only _ L h' account H)
      as [(id' & s & r & ? & ? & ?)|(id' & s & g & ? & ? & ?)].
    + left. by exists id', s, r.
    + right. exists id', s, g. split; [by apply Hkeep|done].
Qed.

Lemma Ledger_exec env c st : Inv st -> Ledger st -> Ledger (exec env c st).
Proof.
  intros I L.
  destruct (exec_cases env c st) as [(e & _ & ->)|[Ho Heff]]; [done|].
  revert Ho.
  destruct Heff as [title req deadline ? ?|id answer proof h ? ? ? ? ? ?
                   |id ? ? ? ?|id student score proof h ? ? ? ? ? ?];
    intros Ho.
  - apply Ledger_afterCreate; [done|done|].
    by destruct (create_ok_inv _ _ _ _ _ Ho) as (_ & _ & _ & ?).
  - by apply Ledger_afterSubmit.
  - by apply Ledger_afterStart.
  - by apply Ledger_afterGrade.
Qed.

Lemma steps_Ledger st st' :
  Inv st -> Ledger st -> steps_to st st' -> Ledger st'.
Proof.
  intros I L Hs. induction Hs as [|st' env c Hs IH Hwf _]; [done|].
  apply Ledger_exec; [by eapply steps_Inv|done].
Qed.

Lemma reachable_Ledger st : reachable st -> Ledger st.
Proof.
  intros (d & env0 & Hwf & _ & Hs).
  eapply steps_Ledger; [apply Inv_constructor|apply Ledger_constructor|done].
Qed.

Lemma steps_since_steps t st st' : steps_since t st st' -> steps_to st st'.
Proof.
  intros Hs. induction Hs as [|st' env c _ IH Hwf Hwc _]; [apply steps_refl|].
  by apply steps_next.
Qed.

End LedgerProofs.

(** ** Assignments: creation, lookup, immutability *)

Section Assignments.
Context `{fhe : FHEVM}.

Lemma getAssignment_eq id env st :
  getAssignment id env st =
    if assignmentExists st id
    then (st, Ok (a_title (assignmentAt st id),
                  a_requirements (assignmentAt st id),
                  a_deadline (assignmentAt st id),
                  a_submissionCount (assignmentAt st id),
                  a_isGrading (assignmentAt st id)))
    else (st, Revert NotFound).
Proof.
  unfold getAssignment, bind, gets, require, ret, revert, assignmentExists.
  by destruct (0 <? a_deadline (assignmentAt st id)).
Qed.

(** X1. A successful createAssignment returns the old value of
    totalAssignments as the new identifier, an identifier that did not
    exist before; it raises totalAssignments by one, stores exactly the
    title, requirements and deadline it was given with the caller as
    teacher, no submissions and grading not started, so that
    getAssignment on the new identifier gives them back; every other
    assignment, every submission and every grade is untouched. *)
Theorem createAssignment_roundtrip st env env' title requirements deadline :
  reachable st ->
  outcome env (CreateAssignment title requirements deadline) st = Ok tt ->
  snd (createAssignment title requirements deadline env st)
    = Ok (totalAssignments st) /\
  assignmentExists st (totalAssignments st) = false /\
  totalAssignments (exec env (CreateAssignment title requirements deadline) st)
    = totalAssignments st + 1 /\
  getAssignment (totalAssignments st) env'
      (exec env (CreateAssignment title requirements deadline) st)
    = (exec env (CreateAssignment title requirements deadline) st,
       Ok (title, requirements, deadline, 0, false)) /\
  assignmentAt (exec env (CreateAssignment title requirements deadline) st)
               (totalAssignments st)
    = mkAssignment (totalAssignments st) title requirements deadline
                   (msg_sender env) 0 false /\
  (forall id, id <> totalAssignments st ->
     assignmentAt (exec env (CreateAssignment title requirements deadline) st)
                  id = assignmentAt st id) /\
  submissions (exec env (CreateAssignment title requirements deadline) st)
    = submissions st /\
  grades (exec env (CreateAssignment title requirements deadline) st)
    = grades st.
Proof.
  intros Hr Ho. pose proof (reachable_Inv _ Hr) as I.
  destruct (create_ok_inv _ _ _ _ _ Ho) as (Hs & Hd & Ht & Htot).
  assert (exec env (CreateAssignment title requirements deadline) st
          = afterCreate env title requirements deadline st) as ->.
  { pose proof (exec_ok _ _ _ Ho) as Heff. by inversion Heff. }
  set (st' := afterCreate env title requirements deadline st).
  assert (forall id, assignmentAt st' id =
            if decide (totalAssignments st = id)
            then mkAssignment (totalAssignments st) title requirements
                   deadline (msg_sender env) 0 false
            else assignmentAt st id) as HA
    by (intros; by apply assignmentAt_insert).
  split.
  { rewrite createAssignment_eq.
    apply N.eqb_eq in Hs. apply N.ltb_lt in Hd, Htot. rewrite Hs, Hd, Htot.
    destruct (0 <? N.of_nat (String.length title)) eqn:E; [done|].
    destruct title; [done|]. cbn in E. apply N.ltb_ge in E. lia. }
  split.
  { destruct (Inv_unallocated st _ I (N.le_refl _)) as (Hnone & _).
    unfold assignmentExists, assignmentAt. by rewrite Hnone. }
  split; [done|]. split.
  { rewrite getAssignment_eq. unfold assignmentExists. rewrite HA.
    destruct (decide (totalAssignments st = totalAssignments st)); [|done].
    cbn. assert ((0 <? deadline) = true) as -> by (apply N.ltb_lt; lia). done. }
  split.
  { rewrite HA. by destruct (decide (totalAssignments st = totalAssignments st)). }
  split; [|done].
  intros id Hne. rewrite HA. by destruct (decide (totalAssignments st = id)).
Qed.

(** X2. Called by the teacher, createAssignment succeeds exactly when
    the deadline is strictly after the current time, the title is not
    empty and totalAssignments has not reached the top of uint256; a
    deadline at or before the current time is refused with
    InvalidDeadline whatever the title, an empty title with a good
    deadline with EmptyTitle; the requirements play no part, empty ones
    are accepted. *)
Theorem createAssignment_accepts_iff st env title requirements deadline :
  msg_sender env = teacher st ->
  (outcome env (CreateAssignment title requirements deadline) st = Ok tt <->
     block_timestamp env < deadline /\ title <> EmptyString /\
     totalAssignments st < MAX_UINT256) /\
  (deadline <= block_timestamp env ->
     outcome env (CreateAssignment title requirements deadline) st
       = Revert InvalidDeadline) /\
  (block_timestamp env < deadline -> title = EmptyString ->
     outcome env (CreateAssignment title requirements deadline) st
       = Revert EmptyTitle) /\
  (forall requirements',
     outcome env (CreateAssignment title requirements' deadline) st
     = outcome env (CreateAssignment title requirements deadline) st).
Proof.
  intros Hs. apply N.eqb_eq in Hs.
  split; [|split; [|split]].
  - split.
    + intros Ho. by destruct (create_ok_inv _ _ _ _ _ Ho) as (_ & ? & ? & ?).
    + intros (Hd & Ht & Htot). rewrite outcome_create, Hs.
      apply N.ltb_lt in Hd, Htot. rewrite Hd, Htot.
      destruct title as [|a title]; [done|].
      assert ((0 <? N.of_nat (String.length (String a title))) = true) as ->
        by (apply N.ltb_lt; cbn [String.length]; lia).
      done.
  - intros Hd. rewrite outcome_create, Hs. apply N.ltb_ge in Hd.
    by rewrite Hd.
  - intros Hd ->. rewrite outcome_create, Hs. apply N.ltb_lt in Hd.
    by rewrite Hd.
  - intros req'. by rewrite !outcome_create.
Qed.

(** X3. In every reachable state the existing assignments are exactly
    those with an identifier below totalAssignments: getAssignment
    returns the stored title, requirements, deadline, count and latch
    for such an identifier, whose record carries it as its id, and fails
    with NotFound for every other one; it never changes the state. *)
Theorem getAssignment_allocated st env id :
  reachable st ->
  (id < totalAssignments st ->
     getAssignment id env st
       = (st, Ok (a_title (assignmentAt st id),
                  a_requirements (assignmentAt st id),
                  a_deadline (assignmentAt st id),
                  a_submissionCount (assignmentAt st id),
                  a_isGrading (assignmentAt st id))) /\
     a_id (assignmentAt st id) = id /\
     0 < a_deadline (assignmentAt st id)) /\
  (totalAssignments st <= id ->
     getAssignment id env st = (st, Revert NotFound) /\
     assignmentAt st id = zeroAssignment).
Proof.
  intros Hr. pose proof (reachable_Inv _ Hr) as I.
  pose proof (reachable_Ledger _ Hr) as L.
  split.
  - intros Hlt. pose proof (proj2 (Inv_exists_allocated _ id I) Hlt) as Hex.
    rewrite getAssignment_eq, Hex. split; [done|]. split.
    + exact (led_id _ L id _ (assignmentAt_stored _ _ Hex)).
    + by apply N.ltb_lt.
  - intros Hge. destruct (Inv_unallocated _ _ I Hge) as (Hnone & _).
    assert (assignmentAt st id = zeroAssignment) as Hz
      by (unfold assignmentAt; by rewrite Hnone).
    split; [|done]. rewrite getAssignment_eq. unfold assignmentExists.
    by rewrite Hz.
Qed.

End Assignments.

Section Monotone.
Context `{fhe : FHEVM}.

Lemma Effect_fields env c st st' id :
  Inv st -> Effect env st c st' -> assignmentExists st id = true ->
  a_id (assignmentAt st' id) = a_id (assignmentAt st id) /\
  a_title (assignmentAt st' id) = a_title (assignmentAt st id) /\
  a_requirements (assignmentAt st' id) = a_requirements (assignmentAt st id) /\
  a_submissionCount (assignmentAt st id)
    <= a_submissionCount (assignmentAt st' id) /\
  (a_isGrading (assignmentAt st id) = true ->
   a_isGrading (assignmentAt st' id) = true) /\
  totalAssignments st <= totalAssignments st'.
Proof.
  intros I Heff Hex.
  destruct Heff as [title req deadline ? ?|id0 answer proof h ? ? ? ? ? ?
                   |id0 ? ? ? ?|id0 student score proof h ? ? ? ? ? ?].
  - rewrite (assignmentAt_insert st (afterCreate env title req deadline st)
               (totalAssignments st) _ id eq_refl).
    destruct (decide (totalAssignments st = id)) as [<-|].
    + destruct (Inv_unallocated st _ I (N.le_refl _)) as (Hnone & _).
      unfold assignmentExists, assignmentAt in Hex. rewrite Hnone in Hex.
      discriminate Hex.
    + repeat split; try done. cbn. lia.
  - rewrite (assignmentAt_insert st (afterSubmit env id0 h st) id0 _ id
               eq_refl).
    destruct (decide (id0 = id)) as [<-|]; repeat split; try done.
    cbn. lia.
  - rewrite (assignmentAt_insert st (afterStart id0 st) id0 _ id eq_refl).
    destruct (decide (id0 = id)) as [<-|]; repeat split; done.
  - repeat split; done.
Qed.

(** X4. Once an assignment exists, its id (which is its key), title,
    requirements, deadline and teacher stay the same through every later
    transaction; its submissionCount never decreases, its isGrading
    latch never goes back to false, and totalAssignments never
    decreases. *)
Theorem assignment_is_immutable st st' id :
  reachable st -> steps_to st st' -> assignmentExists st id = true ->
  assignmentExists st' id = true /\
  a_id (assignmentAt st' id) = id /\
  a_title (assignmentAt st' id) = a_title (assignmentAt st id) /\
  a_requirements (assignmentAt st' id) = a_requirements (assignmentAt st id) /\
  a_deadline (assignmentAt st' id) = a_deadline (assignmentAt st id) /\
  a_teacher (assignmentAt st' id) = a_teacher (assignmentAt st id) /\
  a_submissionCount (assignmentAt st id)
    <= a_submissionCount (assignmentAt st' id) /\
  (a_isGrading (assignmentAt st id) = true ->
   a_isGrading (assignmentAt st' id) = true) /\
  totalAssignments st <= totalAssignments st'.
Proof.
  intros Hr Hs Hex. pose proof (reachable_Inv _ Hr) as I.
  assert (a_id (assignmentAt st id) = id) as Hid.
  { exact (led_id _ (reachable_Ledger _ Hr) id _
             (assignmentAt_stored _ _ Hex)). }
  destruct (steps_frame _ _ I Hs) as (_ & Hfr & _).
  destruct (Hfr id Hex) as (Hex' & Hd & Ht).
  split; [done|].
  cut (a_id (assignmentAt st' id) = a_id (assignmentAt st id) /\
       a_title (assignmentAt st' id) = a_title (assignmentAt st id) /\
       a_requirements (assignmentAt st' id)
         = a_requirements (assignmentAt st id) /\
       a_submissionCount (assignmentAt st id)
         <= a_submissionCount (assignmentAt st' id) /\
       (a_isGrading (assignmentAt st id) = true ->
        a_isGrading (assignmentAt st' id) = true) /\
       totalAssignments st <= totalAssignments st').
  { intros (E1 & E2 & E3 & E4 & E5 & E6). rewrite E1. by repeat split. }
  clear Hex' Hd Ht Hfr.
  induction Hs as [|st' env c Hs IH _ _]; [by repeat split|].
  destruct IH as (E1 & E2 & E3 & E4 & E5 & E6).
  destruct (exec_cases env c st') as [(e & _ & ->)|[_ Heff]];
    [by repeat split|].
  assert (Inv st') as I' by by eapply steps_Inv.
  destruct (steps_frame _ _ I Hs) as (_ & Hfr & _).
  destruct (Hfr id Hex) as (Hex' & _).
  destruct (Effect_fields _ _ _ _ id I' Heff Hex')
    as (F1 & F2 & F3 & F4 & F5 & F6).
  repeat split; try congruence; try lia. auto.
Qed.

End Monotone.

(** ** The grading latch and the two time windows *)

Section Windows.
Context `{fhe : FHEVM}.

Lemma outcome_start env st id :
  outcome env (StartGrading id) st =
    if negb (msg_sender env =? teacher st) then Revert Unauthorized
    else if negb (assignmentExists st id) then Revert NotFound
    else if negb (a_deadline (assignmentAt st id) <=? block_timestamp env)
      then Revert GradingNotOpen
    else if a_isGrading (assignmentAt st id) then Revert AlreadyStarted
    else Ok tt.
Proof.
  unfold outcome, transact. cbn [body]. rewrite startGrading_eq.
  repeat match goal with
         | |- context [if ?b then _ else _] => destruct b; try reflexivity
         end.
Qed.

(** No transaction lowers the latch of an existing assignment. *)
Lemma steps_latch_persists st st' id :
  Inv st -> assignmentExists st id = true ->
  a_isGrading (assignmentAt st id) = true ->
  steps_to st st' ->
  a_isGrading (assignmentAt st' id) = true.
Proof.
  intros I Hex Hg Hs. induction Hs as [|st' env c Hs IH _ _]; [done|].
  destruct (exec_cases env c st') as [(e & _ & ->)|[_ Heff]]; [done|].
  pose proof (steps_Inv _ _ I Hs) as I'.
  destruct (steps_frame _ _ I Hs) as (_ & Ha & _).
  destruct (Ha id Hex) as (Hex' & _).
  destruct (Effect_fields _ _ _ _ id I' Heff Hex') as (_ & _ & _ & _ & Hl & _).
  by apply Hl.
Qed.

(** X5. A successful startGrading was called by the teacher on an
    existing assignment at or after its deadline with the latch still
    down; it raises the isGrading latch of that assignment and changes
    nothing else in the state; afterwards startGrading on the assignment
    never succeeds again (the teacher gets AlreadyStarted from the
    deadline on), and every other call has the outcome it would have had
    without the latch.  From a reachable state this lasts: in every
    state that follows the success, whatever transactions come in
    between, the latch is still up and startGrading on the assignment
    fails, with the same three errors. *)
Theorem startGrading_only_raises_latch st env id :
  outcome env (StartGrading id) st = Ok tt ->
  (msg_sender env = teacher st /\ assignmentExists st id = true /\
   a_deadline (assignmentAt st id) <= block_timestamp env /\
   a_isGrading (assignmentAt st id) = false) /\
  assignmentAt (exec env (StartGrading id) st) id
    = with_isGrading true (assignmentAt st id) /\
  (forall id', id' <> id ->
     assignmentAt (exec env (StartGrading id) st) id' = assignmentAt st id') /\
  (teacher (exec env (StartGrading id) st) = teacher st /\
   submissions (exec env (StartGrading id) st) = submissions st /\
   grades (exec env (StartGrading id) st) = grades st /\
   totalAssignments (exec env (StartGrading id) st) = totalAssignments st /\
   acl (exec env (StartGrading id) st) = acl st /\
   events (exec env (StartGrading id) st) = events st) /\
  (forall env',
     outcome env' (StartGrading id) (exec env (StartGrading id) st) =
       if negb (msg_sender env' =? teacher st) then Revert Unauthorized
       else if negb (a_deadline (assignmentAt st id) <=? block_timestamp env')
         then Revert GradingNotOpen
       else Revert AlreadyStarted) /\
  (forall env' c, isStartGrading c = false ->
     outcome env' c (exec env (StartGrading id) st) = outcome env' c st) /\
  (reachable st ->
   forall st', steps_to (exec env (StartGrading id) st) st' ->
     a_isGrading (assignmentAt st' id) = true /\
     forall env',
       outcome env' (StartGrading id) st' <> Ok tt /\
       outcome env' (StartGrading id) st' =
         if negb (msg_sender env' =? teacher st) then Revert Unauthorized
         else if negb (a_deadline (assignmentAt st id) <=? block_timestamp env')
           then Revert GradingNotOpen
         else Revert AlreadyStarted).
Proof.
  intros Ho. pose proof (exec_ok _ _ _ Ho) as Heff.
  inversion Heff as [| |id0 Hs Hex Hd Hg E1 E2|]; subst id0.
  set (st' := afterStart id st).
  assert (forall id', assignmentAt st' id' =
            if decide (id = id') then with_isGrading true (assignmentAt st id)
            else assignmentAt st id') as HA
    by (intros; by apply assignmentAt_insert).
  assert (forall id', a_deadline (assignmentAt st' id')
                      = a_deadline (assignmentAt st id')) as HD.
  { intros id'. rewrite HA. by destruct (decide (id = id')) as [<-|]. }
  assert (forall id', a_submissionCount (assignmentAt st' id')
                      = a_submissionCount (assignmentAt st id')) as HC.
  { intros id'. rewrite HA. by destruct (decide (id = id')) as [<-|]. }
  assert (forall id', assignmentExists st' id' = assignmentExists st id') as HX.
  { intros id'. unfold assignmentExists. by rewrite HD. }
  split; [done|]. split.
  { rewrite HA. by destruct (decide (id = id)). }
  split.
  { intros id' Hne. rewrite HA. by destruct (decide (id = id')) as [<-|]. }
  split; [done|]. split.
  - intros env'. rewrite outcome_start, HX, HD, Hex.
    change (teacher st') with (teacher st). rewrite HA.
    destruct (decide (id = id)); [|done]. cbn.
    repeat match goal with
           | |- context [if ?b then _ else _] => destruct b; try reflexivity
           end.
  - split.
    { intros env' [title req deadline|id' answer proof|id'
                  |id' student score proof] Hc; [| | discriminate Hc |].
      + by rewrite !outcome_create.
      + rewrite !outcome_submit, HX, HD, HC. reflexivity.
      + rewrite !outcome_grade, HX, HD. reflexivity. }
    intros Hr st2 Hs2. pose proof (reachable_Inv _ Hr) as I.
    pose proof (Inv_afterStart id st I Hex) as I'. fold st' in I'.
    assert (a_isGrading (assignmentAt st' id) = true) as Hup.
    { rewrite HA. by destruct (decide (id = id)). }
    assert (assignmentExists st' id = true) as Hex' by by rewrite HX.
    pose proof (steps_latch_persists _ _ _ I' Hex' Hup Hs2) as Hup2.
    destruct (steps_frame _ _ I' Hs2) as (Ht2 & Ha2 & _).
    destruct (Ha2 id Hex') as (Hex2 & Hd2 & _).
    split; [done|]. intros env'.
    rewrite outcome_start, Ht2, Hex2, Hd2, HD, Hup2.
    change (teacher st') with (teacher st). cbn.
    repeat match goal with
           | |- context [if ?b then _ else _] => destruct b; try done
           end.
Qed.

(** X6. The submission window and the grading window of an assignment do
    not meet: whenever a submitAssignment for an assignment succeeds in
    one state of a run and a startGrading or gradeSubmission for the
    same assignment succeeds in another, earlier or later in the run,
    the timestamp of the submission is strictly below the timestamp of
    the grading call. *)
Theorem submission_window_before_grading_window
    st1 st2 id envS answer proofS envG c :
  reachable st1 -> reachable st2 ->
  steps_to st1 st2 \/ steps_to st2 st1 ->
  outcome envS (SubmitAssignment id answer proofS) st1 = Ok tt ->
  gradingCall id c -> outcome envG c st2 = Ok tt ->
  block_timestamp envS < block_timestamp envG.
Proof.
  intros Hr1 Hr2 Hs HoS Hc HoG.
  pose proof (reachable_Inv _ Hr1) as I1.
  pose proof (reachable_Inv _ Hr2) as I2.
  pose proof (exec_ok _ _ _ HoS) as HeS.
  inversion HeS as [|id0 a0 p0 h _ _ Hex1 Hlt _ _ E1 E2| |]; subst.
  assert (assignmentExists st2 id = true /\
          a_deadline (assignmentAt st2 id) <= block_timestamp envG)
    as [Hex2 Hle].
  { pose proof (exec_ok _ _ _ HoG) as HeG.
    destruct c as [| |id'|id' s score p]; cbn in Hc; try done; subst id'.
    - by inversion HeG.
    - by inversion HeG. }
  assert (a_deadline (assignmentAt st2 id)
          = a_deadline (assignmentAt st1 id)) as Hd.
  { destruct Hs as [Hs|Hs].
    - destruct (steps_frame _ _ I1 Hs) as (_ & Hfr & _).
      by destruct (Hfr id Hex1) as (_ & ? & _).
    - destruct (steps_frame _ _ I2 Hs) as (_ & Hfr & _).
      by destruct (Hfr id Hex2) as (_ & ? & _). }
  lia.
Qed.

(** X7. In every reachable state a stored Submission belongs to an
    existing assignment, names as its student the address it is stored
    under, which is a 160-bit address other than the teacher, and
    carries a timestamp strictly below the assignment's deadline; a
    stored Grade carries a timestamp at or above the deadline and is
    never the teacher's. *)
Theorem stored_records_respect_deadline st id s :
  reachable st ->
  (submissionExists st id s = true ->
     assignmentExists st id = true /\
     s_student (submissionAt st id s) = s /\
     s < ADDRESS_BOUND /\ s <> teacher st /\
     s_timestamp (submissionAt st id s) < a_deadline (assignmentAt st id)) /\
  (gradeExists st id s = true ->
     assignmentExists st id = true /\ s <> teacher st /\
     a_deadline (assignmentAt st id) <= g_timestamp (gradeAt st id s)).
Proof.
  intros Hr. pose proof (reachable_Inv _ Hr) as I.
  pose proof (reachable_Ledger _ Hr) as L.
  assert (forall s', submissionExists st id s' = true ->
     assignmentExists st id = true /\
     s_student (submissionAt st id s') = s' /\
     s' < ADDRESS_BOUND /\ s' <> teacher st /\
     s_timestamp (submissionAt st id s') < a_deadline (assignmentAt st id))
    as Hsub.
  { intros s' Hx. pose proof (submissionAt_stored _ _ _ Hx) as Hst.
    destruct (inv_submission _ I _ _ _ Hst) as (_ & Hb & Hne & Hlt).
    destruct (Inv_submission_assignment _ _ _ I Hx) as (Hex & _).
    pose proof (led_student _ L _ _ _ Hst). done. }
  split; [apply Hsub|].
  intros Hx. destruct (Inv_grade_submission _ _ _ I Hx) as (Hsx & Hle).
  by destruct (Hsub s Hsx) as (? & _ & _ & ? & _).
Qed.

(** X8. In every reachable state the students graded for an assignment
    are among those who submitted to it, so the number of grades never
    exceeds the assignment's submissionCount. *)
Theorem grades_never_exceed_submissions st id :
  reachable st ->
  (forall s, s ∈ gradedStudents st id <-> gradeExists st id s = true) /\
  gradedStudents st id ⊆ submitters st id /\
  N.of_nat (size (gradedStudents st id))
    <= a_submissionCount (assignmentAt st id).
Proof.
  intros Hr. pose proof (reachable_Inv _ Hr) as I.
  assert (forall s, s ∈ gradedStudents st id <-> gradeExists st id s = true)
    as Hmem.
  { intros s. unfold gradedStudents, gradeExists, gradeAt.
    rewrite elem_of_dom. split.
    - intros [g Hg]. apply map_lookup_filter_Some in Hg as [Hg Hx].
      by rewrite Hg.
    - intros Hx. destruct (gradesOf st id !! s) as [g|] eqn:E.
      + exists g. by apply map_lookup_filter_Some.
      + discriminate Hx. }
  assert (gradedStudents st id ⊆ submitters st id) as Hsub.
  { intros s Hs. apply submitters_spec. apply Hmem in Hs.
    by destruct (Inv_grade_submission _ _ _ I Hs). }
  split; [done|]. split; [done|].
  rewrite (Inv_countSubmitters _ _ I). unfold countSubmitters.
  apply subseteq_size in Hsub. lia.
Qed.

End Windows.

(** ** Submissions and grades: what a successful call stores *)

Section Records.
Context `{fhe : FHEVM}.

(** X9. After a successful submitAssignment, getSubmission for the
    caller returns the handle that ingestion produced, the block
    timestamp of the call and exists = true, and hasSubmitted answers
    true; the caller, who was not among the submitters, is the one
    student added to them; the submission of every other pair, every
    grade and totalAssignments are untouched. *)
Theorem submission_roundtrip st env env' id answer proof h :
  outcome env (SubmitAssignment id answer proof) st = Ok tt ->
  verifyInput (msg_sender env) answer proof = Some h ->
  let st' := exec env (SubmitAssignment id answer proof) st in
  getSubmission id (msg_sender env) env' st'
    = (st', Ok (h, block_timestamp env, true)) /\
  hasSubmitted id (msg_sender env) env' st' = (st', Ok true) /\
  submissionAt st' id (msg_sender env)
    = mkSubmission (msg_sender env) h (block_timestamp env) true /\
  (forall id' s', (id', s') <> (id, msg_sender env) ->
     submissionAt st' id' s' = submissionAt st id' s') /\
  (msg_sender env ∉ submitters st id) /\
  submitters st' id = {[ msg_sender env ]} ∪ submitters st id /\
  (forall id', id' <> id -> submitters st' id' = submitters st id') /\
  grades st' = grades st /\
  totalAssignments st' = totalAssignments st.
Proof.
  intros Ho Hv st'. subst st'.
  pose proof (exec_ok _ _ _ Ho) as Heff.
  inversion Heff as [|id0 a0 p0 h0 Hv0 _ _ _ Hno _ E1 E2| |]; subst.
  assert (h0 = h) as -> by congruence. clear Heff.
  set (new := mkSubmission (msg_sender env) h (block_timestamp env) true).
  set (st' := afterSubmit env id h st).
  assert (forall id', submissionsOf st' id' =
            if decide (id = id')
            then <[msg_sender env := new]> (submissionsOf st id)
            else submissionsOf st id') as HS
    by (intros; by apply submissionsOf_insert).
  assert (submissionAt st' id (msg_sender env) = new) as Hnew.
  { unfold submissionAt. rewrite HS. destruct (decide (id = id)); [|done].
    by rewrite lookup_insert_eq. }
  split.
  { unfold getSubmission, bind, gets, ret. by rewrite Hnew. }
  split.
  { unfold hasSubmitted, gets. by rewrite Hnew. }
  split; [done|]. split.
  { intros id' s' Hne. unfold submissionAt. rewrite HS.
    destruct (decide (id = id')) as [<-|]; [|done].
    destruct (decide (msg_sender env = s')) as [<-|]; [done|].
    by rewrite lookup_insert_ne. }
  split.
  { rewrite submitters_spec. by rewrite Hno. }
  split.
  { unfold submitters. rewrite HS. destruct (decide (id = id)); [|done].
    rewrite map_filter_insert_True by done. by rewrite dom_insert_L. }
  split; [|done].
  intros id' Hne. unfold submitters. rewrite HS.
  by destruct (decide (id = id')) as [<-|].
Qed.

(** X10. After a successful gradeSubmission, getGrade for the student
    returns the handle that ingestion produced, the block timestamp of
    the call and exists = true, and hasGrade answers true; the grade of
    every other pair, every assignment (so every submissionCount), every
    submission and totalAssignments are untouched. *)
Theorem grade_roundtrip st env env' id student score proof h :
  outcome env (GradeSubmission id student score proof) st = Ok tt ->
  verifyInput (msg_sender env) score proof = Some h ->
  let st' := exec env (GradeSubmission id student score proof) st in
  getGrade id student env' st' = (st', Ok (h, block_timestamp env, true)) /\
  hasGrade id student env' st' = (st', Ok true) /\
  (forall id' s', (id', s') <> (id, student) ->
     gradeAt st' id' s' = gradeAt st id' s') /\
  (student ∉ gradedStudents st id) /\
  gradedStudents st' id = {[ student ]} ∪ gradedStudents st id /\
  assignments st' = assignments st /\
  submissions st' = submissions st /\
  totalAssignments st' = totalAssignments st.
Proof.
  intros Ho Hv st'. subst st'.
  pose proof (exec_ok _ _ _ Ho) as Heff.
  inversion Heff as [| | |id0 s0 sc0 p0 h0 Hv0 _ _ _ _ Hno E1 E2]; subst.
  assert (h0 = h) as -> by congruence. clear Heff.
  set (new := mkGrade h (block_timestamp env) true).
  set (st' := afterGrade env id student h st).
  assert (forall id', gradesOf st' id' =
            if decide (id = id') then <[student := new]> (gradesOf st id)
            else gradesOf st id') as HG
    by (intros; by apply gradesOf_insert).
  assert (gradeAt st' id student = new) as Hnew.
  { unfold gradeAt. rewrite HG. destruct (decide (id = id)); [|done].
    by rewrite lookup_insert_eq. }
  split.
  { unfold getGrade, bind, gets, ret. by rewrite Hnew. }
  split.
  { unfold hasGrade, gets. by rewrite Hnew. }
  split.
  { intros id' s' Hne. unfold gradeAt. rewrite HG.
    destruct (decide (id = id')) as [<-|]; [|done].
    destruct (decide (student = s')) as [<-|]; [done|].
    by rewrite lookup_insert_ne. }
  split.
  { unfold gradedStudents. rewrite elem_of_dom. intros [g Hg].
    apply map_lookup_filter_Some in Hg as [Hg Hx]. cbn in Hx.
    unfold gradeExists, gradeAt in Hno. rewrite Hg in Hno. cbn in Hno.
    congruence. }
  split; [|done].
  unfold gradedStudents. rewrite HG. destruct (decide (id = id)); [|done].
  rewrite map_filter_insert_True by done. by rewrite dom_insert_L.
Qed.

End Records.

(** ** Allowances and events over a run *)

Section Run.
Context `{fhe : FHEVM}.

(** X11. The contract never revokes an allowance and grants one only
    in a successful submitAssignment or gradeSubmission: a submission
    grants its handle to the contract itself and to the teacher, a
    grading grants its handle to the contract itself and to the graded
    student, and a failed call, createAssignment and startGrading grant
    nothing. *)
Theorem allowances_only_grow st st' :
  steps_to st st' ->
  acl st ⊆ acl st' /\
  (forall env c, acl (exec env c st') = granted env c st' ∪ acl st') /\
  (forall env c e, outcome env c st' = Revert e -> granted env c st' = ∅) /\
  (forall env title requirements deadline,
     granted env (CreateAssignment title requirements deadline) st' = ∅) /\
  (forall env id, granted env (StartGrading id) st' = ∅).
Proof.
  intros Hs. split.
  - induction Hs as [|st' env c _ IH _ _]; [done|].
    rewrite acl_exec. etrans; [exact IH|]. apply union_subseteq_r.
  - split; [intros; apply acl_exec|]. split; [|split].
    + intros env c e Ho. unfold granted. by rewrite Ho.
    + intros env title req deadline. unfold granted.
      by destruct (outcome env _ st').
    + intros env id. unfold granted. by destruct (outcome env _ st').
Qed.

(** X12. In every reachable state the handle of every stored Submission
    is allowed to the contract and to the teacher, the handle of every
    stored Grade is allowed to the contract and to its student, and
    there is no other allowance: every allowance, the contract's own
    included, is on the handle of a stored Submission and held by the
    contract or the teacher, or on the handle of a stored Grade and held
    by the contract or the student of that Grade. *)
Theorem allowances_match_records st :
  reachable st ->
  (forall id s, submissionExists st id s = true ->
     (s_encryptedAnswer (submissionAt st id s), this) ∈ acl st /\
     (s_encryptedAnswer (submissionAt st id s), teacher st) ∈ acl st) /\
  (forall id s, gradeExists st id s = true ->
     (g_encryptedScore (gradeAt st id s), this) ∈ acl st /\
     (g_encryptedScore (gradeAt st id s), s) ∈ acl st) /\
  (forall h account, (h, account) ∈ acl st ->
     (exists id s, submissionExists st id s = true /\
                   s_encryptedAnswer (submissionAt st id s) = h /\
                   (account = this \/ account = teacher st)) \/
     (exists id s, gradeExists st id s = true /\
                   g_encryptedScore (gradeAt st id s) = h /\
                   (account = this \/ account = s))).
Proof.
  intros Hr. pose proof (reachable_Inv _ Hr) as I.
  pose proof (reachable_Ledger _ Hr) as L.
  split; [|split].
  - intros id s Hx. apply (led_acl_submission _ L id s).
    by apply submissionAt_stored.
  - intros id s Hx. apply (led_acl_grade _ L id s). by apply gradeAt_stored.
  - intros h account H.
    destruct (led_acl_only _ L h account H)
      as [(id & s & r & Hr' & ? & ?)|(id & s & g & Hg & ? & ?)].
    + left. exists id, s.
      destruct (inv_submission _ I _ _ _ Hr') as (Hx & _).
      unfold submissionExists, submissionAt. by rewrite Hr'.
    + right. exists id, s.
      destruct (inv_grade _ I _ _ _ Hg) as (Hx & _).
      unfold gradeExists, gradeAt. by rewrite Hg.
Qed.

(** X13. The event log is append-only: every state of a run extends the
    log of the states before it, a transaction that reverts adds
    nothing, and a successful one adds exactly the event of its kind
    (AssignmentCreated with the new identifier, SubmissionCreated or
    GradeAssigned with the pair and the block timestamp), startGrading
    none. *)
Theorem log_is_append_only st st' :
  steps_to st st' ->
  events st `prefix_of` events st' /\
  (forall env c, events (exec env c st') = events st' ++ emitted env c st') /\
  (forall env c, length (emitted env c st') <= 1)%nat /\
  (forall env c e, outcome env c st' = Revert e -> emitted env c st' = []) /\
  (forall env c, outcome env c st' = Ok tt -> isStartGrading c = false ->
     length (emitted env c st') = 1%nat).
Proof.
  intros Hs. split.
  - induction Hs as [|st' env c _ IH _ _]; [done|].
    rewrite events_exec. etrans; [exact IH|]. by apply prefix_app_r.
  - split; [intros; apply events_exec|]. split; [|split].
    + intros env c. unfold emitted.
      destruct (outcome env c st'); [|cbn; lia].
      destruct c; cbn; lia.
    + intros env c e Ho. unfold emitted. by rewrite Ho.
    + intros env c Ho Hc. unfold emitted. rewrite Ho.
      by destruct c.
Qed.

Lemma NoDup_length_size (l : list N) {V} (m : gmap N V) :
  NoDup l -> (forall s, s ∈ l <-> is_Some (m !! s)) -> length l = size m.
Proof.
  intros Hnd Hin. rewrite <- size_dom.
  assert (dom m = list_to_set l) as ->.
  { apply set_eq. intros s. rewrite elem_of_dom, elem_of_list_to_set.
    by rewrite Hin. }
  by rewrite size_list_to_set.
Qed.

(** X14. In every reachable state the log agrees with the storage: the
    AssignmentCreated events carry the identifiers 0, 1, ... up to
    totalAssignments - 1 in this order; the SubmissionCreated events of
    an assignment name each student holding a Submission exactly once,
    so there are submissionCount of them; the GradeAssigned events name
    each graded student exactly once. *)
Theorem log_matches_storage st id :
  reachable st ->
  creationEvents st = N.of_nat <$> seq 0 (N.to_nat (totalAssignments st)) /\
  NoDup (submissionEvents st id) /\
  (forall s, s ∈ submissionEvents st id <-> submissionExists st id s = true) /\
  N.of_nat (length (submissionEvents st id))
    = a_submissionCount (assignmentAt st id) /\
  NoDup (gradeEvents st id) /\
  (forall s, s ∈ gradeEvents st id <-> gradeExists st id s = true).
Proof.
  intros Hr. pose proof (reachable_Inv _ Hr) as I.
  pose proof (reachable_Ledger _ Hr) as L.
  destruct (led_submitted _ L id) as [Hnd Hin].
  destruct (led_graded _ L id) as [Hndg Hing].
  split; [apply (led_created _ L)|]. split; [done|]. split.
  { intros s. rewrite Hin. split.
    - intros [r Hr']. destruct (inv_submission _ I _ _ _ Hr') as (Hx & _).
      unfold submissionExists, submissionAt. by rewrite Hr'.
    - intros Hx. rewrite (submissionAt_stored _ _ _ Hx). eauto. }
  split.
  { rewrite (inv_count _ I). f_equal. by apply NoDup_length_size. }
  split; [done|].
  intros s. rewrite Hing. split.
  - intros [g Hg]. destruct (inv_grade _ I _ _ _ Hg) as (Hx & _).
    unfold gradeExists, gradeAt. by rewrite Hg.
  - intros Hx. rewrite (gradeAt_stored _ _ _ Hx). eauto.
Qed.

End Run.

(** ** After the deadline, at creation, and before any write *)

Section Deadline.
Context `{fhe : FHEVM}.

Lemma exec_keeps_submissions_after_deadline env c st id :
  Inv st -> assignmentExists st id = true ->
  a_deadline (assignmentAt st id) <= block_timestamp env ->
  submissionsOf (exec env c st) id = submissionsOf st id /\
  a_submissionCount (assignmentAt (exec env c st) id)
    = a_submissionCount (assignmentAt st id).
Proof.
  intros I Hex Hle.
  destruct (exec_cases env c st) as [(e & _ & ->)|[_ Heff]]; [done|].
  destruct Heff as [title req deadline ? ?|id0 answer proof h ? ? ? Hlt ? ?
                   |id0 ? ? ? ?|id0 student score proof h ? ? ? ? ? ?].
  - split; [done|].
    rewrite (assignmentAt_insert st (afterCreate env title req deadline st)
               (totalAssignments st) _ id eq_refl).
    destruct (decide (totalAssignments st = id)) as [<-|]; [|done].
    destruct (Inv_unallocated st _ I (N.le_refl _)) as (Hnone & _).
    unfold assignmentExists, assignmentAt in Hex. rewrite Hnone in Hex.
    discriminate Hex.
  - rewrite (submissionsOf_insert st (afterSubmit env id0 h st) id0 _ _ id
               eq_refl).
    rewrite (assignmentAt_insert st (afterSubmit env id0 h st) id0 _ id
               eq_refl).
    destruct (decide (id0 = id)) as [<-|]; [lia|done].
  - split; [done|].
    rewrite (assignmentAt_insert st (afterStart id0 st) id0 _ id eq_refl).
    by destruct (decide (id0 = id)) as [<-|].
  - done.
Qed.

(** X15. Once the deadline of an assignment has passed, its submissions
    are frozen: through any later transactions, all carrying a timestamp
    at or after the deadline, the stored submissions of the assignment,
    the set of its submitters and its submissionCount stay the same, and
    no submitAssignment for it succeeds. *)
Theorem submissions_frozen_after_deadline t st st' id :
  reachable st -> steps_since t st st' ->
  assignmentExists st id = true ->
  a_deadline (assignmentAt st id) <= t ->
  submissionsOf st' id = submissionsOf st id /\
  submitters st' id = submitters st id /\
  a_submissionCount (assignmentAt st' id)
    = a_submissionCount (assignmentAt st id) /\
  (forall env answer proof, t <= block_timestamp env ->
     outcome env (SubmitAssignment id answer proof) st' <> Ok tt).
Proof.
  intros Hr Hs Hex Hle. pose proof (reachable_Inv _ Hr) as I.
  assert (Inv st' /\ assignmentExists st' id = true /\
          a_deadline (assignmentAt st' id) = a_deadline (assignmentAt st id))
    as (I' & Hex' & Hd').
  { pose proof (steps_since_steps _ _ _ Hs) as Hs'.
    split; [by eapply steps_Inv|].
    destruct (steps_frame _ _ I Hs') as (_ & Hfr & _).
    by destruct (Hfr id Hex) as (? & ? & _). }
  assert (submissionsOf st' id = submissionsOf st id /\
          a_submissionCount (assignmentAt st' id)
            = a_submissionCount (assignmentAt st id)) as [HS HC].
  { clear I' Hex' Hd'.
    induction Hs as [|st' env c Hs IH _ _ Ht]; [done|].
    destruct IH as [IH1 IH2].
    pose proof (steps_since_steps _ _ _ Hs) as Hs'.
    assert (Inv st') as I' by by eapply steps_Inv.
    destruct (steps_frame _ _ I Hs') as (_ & Hfr & _).
    destruct (Hfr id Hex) as (Hex' & Hd' & _).
    destruct (exec_keeps_submissions_after_deadline env c st' id I' Hex')
      as [E1 E2]; [lia|].
    split; congruence. }
  split; [done|]. split; [unfold submitters; by rewrite HS|].
  split; [done|].
  intros env answer proof Ht Ho.
  pose proof (exec_ok _ _ _ Ho) as Heff.
  inversion Heff as [|id0 a0 p0 h _ _ _ Hlt _ _ E1 E2| |]; subst. lia.
Qed.

(** X16. A freshly created assignment is open for submission and closed
    for grading: at the block timestamp of the successful
    createAssignment it has no submitters, every account other than the
    teacher can submit to it (the call succeeds when ingestion accepts
    the proof and fails with InvalidProof otherwise), and startGrading
    and gradeSubmission on it by the teacher fail with GradingNotOpen. *)
Theorem fresh_assignment_is_open st env title requirements deadline :
  reachable st ->
  outcome env (CreateAssignment title requirements deadline) st = Ok tt ->
  let st' := exec env (CreateAssignment title requirements deadline) st in
  let id := totalAssignments st in
  submitters st' id = ∅ /\
  (forall who answer proof, who <> teacher st ->
     outcome (mkEnv who (block_timestamp env))
             (SubmitAssignment id answer proof) st' =
       match verifyInput who answer proof with
       | Some _ => Ok tt
       | None => Revert InvalidProof
       end) /\
  (forall c, gradingCall id c ->
     outcome (mkEnv (teacher st) (block_timestamp env)) c st'
       = Revert GradingNotOpen).
Proof.
  intros Hr Ho st' id. subst st' id. pose proof (reachable_Inv _ Hr) as I.
  destruct (create_ok_inv _ _ _ _ _ Ho) as (Hs & Hd & Ht & Htot).
  assert (exec env (CreateAssignment title requirements deadline) st
          = afterCreate env title requirements deadline st) as ->.
  { pose proof (exec_ok _ _ _ Ho) as Heff. by inversion Heff. }
  set (st' := afterCreate env title requirements deadline st).
  destruct (Inv_unallocated st _ I (N.le_refl _)) as (Hnone & Hsub & Hgr).
  assert (assignmentAt st' (totalAssignments st)
          = mkAssignment (totalAssignments st) title requirements deadline
                         (msg_sender env) 0 false) as HA.
  { rewrite (assignmentAt_insert st st' (totalAssignments st) _ _ eq_refl).
    by destruct (decide (totalAssignments st = totalAssignments st)). }
  assert (submissionsOf st' (totalAssignments st) = ∅) as HS.
  { by rewrite (submissionsOf_same st st'). }
  assert (assignmentExists st' (totalAssignments st) = true) as Hex.
  { unfold assignmentExists. rewrite HA. cbn. apply N.ltb_lt. lia. }
  split.
  { unfold submitters. rewrite HS. by rewrite map_filter_empty, dom_empty_L. }
  split.
  - intros who answer proof Hne. rewrite outcome_submit, Hex. cbn.
    change (teacher st') with (teacher st).
    apply N.eqb_neq in Hne. rewrite Hne.
    unfold submissionExists, submissionAt. rewrite HS, lookup_empty, HA. cbn.
    apply N.ltb_lt in Hd. rewrite Hd. cbn.
    by destruct (verifyInput who answer proof).
  - intros c Hc.
    destruct c as [| |id'|id' s score p]; cbn in Hc; try done; subst id'.
    + rewrite outcome_start, Hex, HA. cbn.
      change (teacher st') with (teacher st). rewrite N.eqb_refl. cbn.
      apply N.leb_gt in Hd. by rewrite Hd.
    + rewrite outcome_grade, Hex, HA. cbn.
      change (teacher st') with (teacher st). rewrite N.eqb_refl. cbn.
      apply N.leb_gt in Hd. by rewrite Hd.
Qed.

(** X17. In every reachable state a function body that reverts has
    written nothing when it stops: every require, the ingestion and the
    checked increments come before the first write that could be left
    behind, and the submission counter, the one increment made after
    writes, never overflows. *)
Theorem failed_body_has_written_nothing st env c e :
  reachable st ->
  snd (body c env st) = Revert e ->
  fst (body c env st) = st /\
  (forall id answer proof, c = SubmitAssignment id answer proof ->
     e <> Overflow).
Proof.
  intros Hr. pose proof (reachable_Inv _ Hr) as I.
  destruct c as [title req deadline|id answer proof|id|id student score proof];
    cbn [body].
  - unfold bind. rewrite createAssignment_eq.
    repeat match goal with
           | |- context [if ?b then _ else _] => destruct b; try done
           end.
  - rewrite submitAssignment_eq, (Inv_no_overflow _ _ I). cbn.
    repeat match goal with
           | |- context [if ?b then _ else _] => destruct b
           | |- context [match ?o with Some _ => _ | None => _ end] =>
               destruct o
           end; cbn; intros [= <-] || intros [=]; (split; [done|]);
      intros ? ? ? _; discriminate.
  - rewrite startGrading_eq.
    repeat match goal with
           | |- context [if ?b then _ else _] => destruct b; try done
           end.
  - rewrite gradeSubmission_eq.
    repeat match goal with
           | |- context [if ?b then _ else _] => destruct b; try done
           | |- context [match ?o with Some _ => _ | None => _ end] =>
               destruct o; try done
           end.
Qed.

End Deadline.

(** ** The web client against the contract *)

Section ClientProofs.
Context `{fhe : FHEVM}.

(** X18. For an existing assignment read from a reachable state, with
    the client's clock at the block timestamp: isDeadlinePassed holds
    exactly from the deadline on, which is when the contract opens
    startGrading and gradeSubmission.  For a connected account other
    than the teacher whose hasSubmitted read has returned the
    contract's answer, canSubmit holds exactly when submitAssignment
    passes all its eligibility checks (it then succeeds, or fails with
    InvalidProof on a rejected proof), and when canSubmit does not hold
    the call reverts with AlreadySubmitted or DeadlinePassed; the
    student page computes canSubmit with isTeacher = false also for the
    teacher, whose call reverts with SelfSubmissionForbidden.  Whatever
    the card holds for hasSubmitted, canSubmit still implies that the
    deadline check passes, so that the call of such an account reverts
    with AlreadySubmitted when the student has a Submission and
    otherwise succeeds or fails with InvalidProof; while hasSubmitted
    is undefined canSubmit is just the negation of isDeadlinePassed,
    and so holds before the deadline for a student who has already
    submitted, whose call reverts with AlreadySubmitted. *)
Theorem card_agrees_with_contract st id who now answer proof :
  reachable st -> assignmentExists st id = true ->
  (isDeadlinePassed now (a_deadline (assignmentAt st id)) = true <->
     a_deadline (assignmentAt st id) <= now) /\
  (isDeadlinePassed now (a_deadline (assignmentAt st id)) = false ->
   forall c caller, gradingCall id c ->
     outcome (mkEnv caller now) c st <> Ok tt) /\
  (who <> teacher st ->
   canSubmit false (a_deadline (assignmentAt st id)) now
             (Some (submissionExists st id who)) true = true ->
     outcome (mkEnv who now) (SubmitAssignment id answer proof) st =
       match verifyInput who answer proof with
       | Some _ => Ok tt
       | None => Revert InvalidProof
       end) /\
  (who <> teacher st ->
   canSubmit false (a_deadline (assignmentAt st id)) now
             (Some (submissionExists st id who)) true = false ->
     outcome (mkEnv who now) (SubmitAssignment id answer proof) st =
       if now <? a_deadline (assignmentAt st id)
       then Revert AlreadySubmitted else Revert DeadlinePassed) /\
  (who = teacher st ->
     outcome (mkEnv who now) (SubmitAssignment id answer proof) st
       = Revert SelfSubmissionForbidden /\
     canSubmit false (a_deadline (assignmentAt st id)) now
               (Some (submissionExists st id who)) true
       = (now <? a_deadline (assignmentAt st id))) /\
  (forall hasSubmitted,
     who <> teacher st ->
     canSubmit false (a_deadline (assignmentAt st id)) now hasSubmitted true
       = true ->
     outcome (mkEnv who now) (SubmitAssignment id answer proof) st =
       if submissionExists st id who then Revert AlreadySubmitted
       else match verifyInput who answer proof with
            | Some _ => Ok tt
            | None => Revert InvalidProof
            end) /\
  canSubmit false (a_deadline (assignmentAt st id)) now None true
    = negb (isDeadlinePassed now (a_deadline (assignmentAt st id))) /\
  (who <> teacher st ->
   submissionExists st id who = true ->
   now < a_deadline (assignmentAt st id) ->
     canSubmit false (a_deadline (assignmentAt st id)) now None true = true /\
     outcome (mkEnv who now) (SubmitAssignment id answer proof) st
       = Revert AlreadySubmitted).
Proof.
  intros Hr Hex. pose proof (reachable_Inv _ Hr) as I.
  assert (0 < a_deadline (assignmentAt st id)) as Hpos by by apply N.ltb_lt.
  assert (isDeadlinePassed now (a_deadline (assignmentAt st id))
          = (a_deadline (assignmentAt st id) <=? now)) as Hp.
  { unfold isDeadlinePassed. apply N.ltb_lt in Hpos. by rewrite Hpos. }
  split; [rewrite Hp; apply N.leb_le|].
  split; [|split; [|split; [|split; [|split; [|split]]]]].
  - rewrite Hp. intros Hlt c caller Hc.
    destruct c as [| |id'|id' s score p]; cbn in Hc; try done; subst id'.
    + rewrite outcome_start, Hex. cbn. rewrite Hlt.
      by destruct (negb (caller =? teacher st)).
    + rewrite outcome_grade, Hex. cbn. rewrite Hlt.
      by destruct (negb (caller =? teacher st)).
  - intros Hne. unfold canSubmit, truthy. rewrite Hp. cbn.
    rewrite outcome_submit, Hex. cbn. apply N.eqb_neq in Hne. rewrite Hne.
    rewrite (Inv_no_overflow _ _ I). cbn.
    destruct (a_deadline (assignmentAt st id) <=? now) eqn:E; [done|].
    apply N.leb_gt, N.ltb_lt in E. rewrite E. cbn.
    destruct (submissionExists st id who); [done|]. intros _.
    by destruct (verifyInput who answer proof).
  - intros Hne. unfold canSubmit, truthy. rewrite Hp. cbn.
    rewrite outcome_submit, Hex. cbn. apply N.eqb_neq in Hne. rewrite Hne.
    destruct (a_deadline (assignmentAt st id) <=? now) eqn:E.
    + apply N.leb_le, N.ltb_ge in E. by rewrite E.
    + apply N.leb_gt, N.ltb_lt in E. rewrite E. cbn.
      by destruct (submissionExists st id who).
  - intros ->. split.
    + rewrite outcome_submit. by rewrite N.eqb_refl.
    + unfold canSubmit, truthy. rewrite Hp. cbn.
      assert (submissionExists st id (teacher st) = false) as ->.
      { destruct (submissionExists st id (teacher st)) eqn:E; [|done].
        by destruct (Inv_submission_assignment _ _ _ I E) as (_ & ? & _). }
      cbn. rewrite N.ltb_antisym. by destruct (_ <=? _).
  - intros hasSubmitted Hne. unfold canSubmit. rewrite Hp. cbn.
    rewrite outcome_submit, Hex. cbn. apply N.eqb_neq in Hne. rewrite Hne.
    rewrite (Inv_no_overflow _ _ I). cbn.
    destruct (a_deadline (assignmentAt st id) <=? now) eqn:E; [done|].
    apply N.leb_gt, N.ltb_lt in E. rewrite E. cbn. intros _.
    destruct (submissionExists st id who); [done|].
    by destruct (verifyInput who answer proof).
  - unfold canSubmit, truthy. cbn. by destruct (isDeadlinePassed _ _).
  - intros Hne Hx Hlt. split.
    + unfold canSubmit, truthy. rewrite Hp. cbn.
      apply N.leb_gt in Hlt. by rewrite Hlt.
    + rewrite outcome_submit, Hex. cbn. rewrite Hx.
      apply N.eqb_neq in Hne. rewrite Hne.
      apply N.ltb_lt in Hlt. by rewrite Hlt.
Qed.

Lemma elem_of_assignmentList total id :
  id ∈ assignmentList total <-> id < total.
Proof.
  unfold assignmentList. rewrite list_elem_of_fmap. split.
  - intros (n & -> & Hn). apply elem_of_seq in Hn. lia.
  - intros Hlt. exists (N.to_nat id). split; [by rewrite N2Nat.id|].
    apply elem_of_seq. lia.
Qed.

(** X19. In every reachable state the cards listed by the dashboards
    are exactly the existing assignments: the list built from
    totalAssignments (as long as it is a safe integer for Number) has
    no duplicate, follows the order of the AssignmentCreated events, and
    contains an identifier exactly when getAssignment on it succeeds, so
    no listed card fails to load. *)
Theorem dashboard_lists_existing_assignments st env id :
  reachable st -> totalAssignments st < 2 ^ 53 ->
  assignmentList (totalAssignments st) = creationEvents st /\
  NoDup (assignmentList (totalAssignments st)) /\
  length (assignmentList (totalAssignments st))
    = N.to_nat (totalAssignments st) /\
  (id ∈ assignmentList (totalAssignments st) <->
     assignmentExists st id = true) /\
  (id ∈ assignmentList (totalAssignments st) <->
     exists v, readContract (getAssignment id) env st = Ok v).
Proof.
  intros Hr _. pose proof (reachable_Inv _ Hr) as I.
  pose proof (reachable_Ledger _ Hr) as L.
  split; [by rewrite (led_created _ L)|]. split.
  { unfold assignmentList. apply NoDup_fmap_2; [|apply NoDup_seq].
    intros x y H. lia. }
  split.
  { unfold assignmentList. by rewrite length_fmap, length_seq. }
  split.
  { rewrite elem_of_assignmentList. symmetry.
    by apply Inv_exists_allocated. }
  rewrite elem_of_assignmentList, <- (Inv_exists_allocated _ id I).
  unfold readContract. rewrite getAssignment_eq.
  destruct (assignmentExists st id); cbn; split; try done; eauto.
  intros [v Hv]. discriminate Hv.
Qed.

Lemma collectSubmissions_all env st id (students : list N) :
  (forall s, s ∈ students -> submissionExists st id s = true) ->
  collectSubmissions env st id students = Ok (rowOf st id <$> students).
Proof.
  induction students as [|s rest IH]; intros Hall; [done|].
  cbn [collectSubmissions]. unfold readContract.
  unfold getSubmission, hasGrade, bind, gets, ret. cbn.
  rewrite IH by (intros s' Hs'; apply Hall; by right).
  pose proof (Hall s (list_elem_of_here _ _)) as Hx.
  unfold submissionExists in Hx. rewrite Hx. reflexivity.
Qed.

(** X20. In every reachable state the grading dialog shows every
    submitter of the assignment exactly once, in the order of
    submission: fetchSubmissions does not fail and drops no event, its
    rows are one per student holding a Submission, submissionCount of
    them, each with the stored handle and timestamp, no decrypted
    answer, an empty score and the isGraded flag of the contract. *)
Theorem grading_dialog_lists_every_submitter st env id :
  reachable st ->
  fetchSubmissions env st id = Ok (rowOf st id <$> submissionEvents st id) /\
  NoDup (submissionEvents st id) /\
  (forall s, s ∈ submissionEvents st id <-> submissionExists st id s = true) /\
  N.of_nat (length (rowOf st id <$> submissionEvents st id))
    = a_submissionCount (assignmentAt st id) /\
  (forall s, ss_address (rowOf st id s) = s /\
             ss_isGraded (rowOf st id s) = gradeExists st id s).
Proof.
  intros Hr. pose proof (reachable_Inv _ Hr) as I.
  pose proof (reachable_Ledger _ Hr) as L.
  destruct (led_submitted _ L id) as [Hnd Hin].
  assert (forall s, s ∈ submissionEvents st id <->
                    submissionExists st id s = true) as Hmem.
  { intros s. rewrite Hin. split.
    - intros [r Hr']. destruct (inv_submission _ I _ _ _ Hr') as (Hx & _).
      unfold submissionExists, submissionAt. by rewrite Hr'.
    - intros Hx. rewrite (submissionAt_stored _ _ _ Hx). eauto. }
  split.
  { unfold fetchSubmissions. apply collectSubmissions_all.
    intros s. apply Hmem. }
  split; [done|]. split; [done|]. split; [|done].
  rewrite length_fmap, (inv_count _ I). f_equal.
  by apply NoDup_length_size.
Qed.

End ClientProofs.

Section ClientForms.
Context `{fhe : FHEVM}.

Lemma create_accepted st env title requirements deadline :
  msg_sender env = teacher st -> block_timestamp env < deadline ->
  title <> EmptyString -> totalAssignments st < MAX_UINT256 ->
  outcome env (CreateAssignment title requirements deadline) st = Ok tt.
Proof.
  intros Hs Hd Ht Htot. rewrite outcome_create.
  apply N.eqb_eq in Hs. apply N.ltb_lt in Hd, Htot. rewrite Hs, Hd, Htot.
  destruct title as [|a title]; [done|].
  assert ((0 <? N.of_nat (String.length (String a title))) = true) as ->
    by (apply N.ltb_lt; cbn [String.length]; lia).
  done.
Qed.

(** X21. When the create form of the teacher dashboard sends a
    transaction, it sends the title and requirements as typed, both
    non-empty, with a deadline in seconds strictly after the client's
    current second; if the block timestamp is not ahead of the client's
    clock, createAssignment, called by the teacher with room left in
    totalAssignments, accepts it. *)
Theorem create_form_passes_contract_checks
    st env title requirements deadline deadlineMs nowMs t r d :
  handleCreateAssignment title requirements deadline deadlineMs nowMs
    = WriteCreateAssignment t r d ->
  msg_sender env = teacher st ->
  totalAssignments st < MAX_UINT256 ->
  (Z.of_N (block_timestamp env) <= nowMs / 1000)%Z ->
  t = title /\ r = requirements /\
  t <> EmptyString /\ r <> EmptyString /\
  (exists ms, deadlineMs = Some ms /\ d = (ms / 1000)%Z) /\
  (nowMs / 1000 < d)%Z /\
  outcome env (CreateAssignment t r (Z.to_N d)) st = Ok tt.
Proof.
  unfold handleCreateAssignment. intros H Hs Htot Hclock.
  destruct title as [|c1 title]; [discriminate H|].
  destruct requirements as [|c2 requirements]; [discriminate H|].
  destruct deadline as [|c3 deadline]; [discriminate H|]. cbn in H.
  destruct deadlineMs as [ms|]; [|discriminate H].
  destruct (ms / 1000 <=? nowMs / 1000)%Z eqn:E; [discriminate H|].
  injection H as <- <- <-. apply Z.leb_gt in E.
  split; [done|]. split; [done|]. split; [done|]. split; [done|].
  split; [by exists ms|]. split; [done|].
  apply create_accepted; try done. lia.
Qed.

End ClientForms.


Section TeacherGate.
Context `{fhe : FHEVM}.


End TeacherGate.

(** ** The bytes32 argument of the client *)

Section Hex.

Lemma byteToHex_digits b :
  byteToHex b = [hexDigit (Byte.to_N b / 16); hexDigit (Byte.to_N b mod 16)].
Proof. destruct b; reflexivity. Qed.

Lemma hexToBytes_byteToHex b rest :
  hexToBytes (byteToHex b ++ rest) = (fun bs => b :: bs) <$> hexToBytes rest.
Proof.
  rewrite byteToHex_digits.
  destruct b; cbn; destruct (hexToBytes rest); reflexivity.
Qed.

Lemma length_bytesToHex bs : length (bytesToHex bs) = (2 * length bs)%nat.
Proof.
  unfold bytesToHex. induction bs as [|b bs IH]; [done|].
  cbn [map concat]. rewrite length_app, IH, byteToHex_digits. cbn. lia.
Qed.

Lemma bytesToHex_app a b : bytesToHex (a ++ b) = bytesToHex a ++ bytesToHex b.
Proof. unfold bytesToHex. by rewrite map_app, concat_app. Qed.

Lemma bytesToHex_take n bs :
  take (2 * n) (bytesToHex bs) = bytesToHex (take n bs).
Proof.
  revert bs. induction n as [|n IH]; intros bs; [done|].
  destruct bs as [|b bs]; [done|].
  replace (2 * S n)%nat with (S (S (2 * n))) by lia.
  unfold bytesToHex in *. cbn [map concat take]. rewrite byteToHex_digits.
  cbn [app take]. by rewrite IH.
Qed.

Lemma bytesToHex_zeros k :
  bytesToHex (replicate k Byte.x00) = replicate (2 * k) "0"%char.
Proof.
  induction k as [|k IH]; [done|].
  replace (2 * S k)%nat with (S (S (2 * k))) by lia.
  unfold bytesToHex in *. cbn [replicate map concat]. by rewrite IH.
Qed.

Lemma hexToBytes_bytesToHex bs : hexToBytes (bytesToHex bs) = Some bs.
Proof.
  induction bs as [|b bs IH]; [done|].
  unfold bytesToHex in *. cbn [map concat].
  by rewrite hexToBytes_byteToHex, IH.
Qed.

(** X23. The bytes32 argument built from a Uint8Array handle always has
    the form 0x followed by exactly 64 lower-case hexadecimal digits: it
    is the hexadecimal text of the first 32 bytes of the handle, filled
    up with zero bytes at the end when the handle is shorter, so a
    32-byte handle is sent unchanged, a longer one is cut and a shorter
    one padded without any error; the proof argument is the text of
    all the bytes of the proof. *)
Theorem handle_argument_is_32_bytes (handle proof : list Byte.byte) :
  length (formatHandle handle) = 66%nat /\
  formatHandle handle
    = "0"%char :: "x"%char
      :: bytesToHex (take 32 (handle ++ replicate 32 Byte.x00)) /\
  hexToBytes (drop 2 (formatHandle handle))
    = Some (take 32 (handle ++ replicate 32 Byte.x00)) /\
  (length handle = 32%nat ->
     hexToBytes (drop 2 (formatHandle handle)) = Some handle) /\
  hexToBytes (drop 2 (formatProof proof)) = Some proof.
Proof.
  assert (formatHandle handle
          = "0"%char :: "x"%char
            :: bytesToHex (take 32 (handle ++ replicate 32 Byte.x00))) as E.
  { unfold formatHandle. f_equal. f_equal. rewrite length_bytesToHex.
    destruct (64 <? 2 * length handle)%nat eqn:Hlen.
    - apply Nat.ltb_lt in Hlen.
      change 64%nat with (2 * 32)%nat. rewrite bytesToHex_take.
      by rewrite take_app_le by lia.
    - apply Nat.ltb_ge in Hlen. unfold padEnd.
      rewrite length_bytesToHex.
      rewrite take_app_ge by lia. rewrite take_replicate.
      rewrite bytesToHex_app, bytesToHex_zeros. f_equal. f_equal. lia. }
  split.
  { rewrite E. cbn [length]. rewrite length_bytesToHex, length_take.
    rewrite length_app, length_replicate. lia. }
  split; [done|]. split.
  { rewrite E. cbn [drop]. apply hexToBytes_bytesToHex. }
  split.
  { intros Hlen. rewrite E.
    change (hexToBytes (bytesToHex (take 32 (handle ++ replicate 32 Byte.x00)))
            = Some handle).
    rewrite hexToBytes_bytesToHex. f_equal. rewrite take_app_le by lia. apply take_ge. lia. }
  unfold formatProof. cbn [drop]. apply hexToBytes_bytesToHex.
Qed.

End Hex.

(** ** The scenario, continued *)

Section MoreScenario.
#[local] Existing Instance mockFHEVM.

Ltac wf_now := repeat split; first [reflexivity | vm_compute; discriminate].

Lemma created_is_reachable : reachable created.
Proof. exact (reachable_intro 1 created created_reachable). Defined.

Lemma submitted_is_reachable : reachable submitted.
Proof. exact (reachable_intro 1 submitted submitted_reachable). Defined.

Lemma graded_is_reachable : reachable graded.
Proof. exact (reachable_intro 1 graded graded_reachable). Defined.

Lemma deployed_is_reachable : reachable deployed.
Proof. exact (reachable_intro 1 deployed deployed_reachable). Defined.

Lemma submitted_to_graded : steps_to submitted graded.
Proof. apply steps_next; [apply steps_refl|wf_now|wf_now]. Defined.

Lemma submitted_since_deadline : steps_since 1100 submitted graded.
Proof.
  apply since_next; [apply since_refl|wf_now|wf_now|vm_compute; discriminate].
Defined.

(** The latch in the scenario: raised once, not needed for grading. *)
Example latch_scenario :
  outcome (mkEnv 1 1090) (StartGrading 0) submitted = Revert GradingNotOpen /\
  outcome (mkEnv 2 1120) (StartGrading 0) submitted = Revert Unauthorized /\
  outcome (mkEnv 1 1120) (StartGrading 0) submitted = Ok tt /\
  snd (getAssignment 0 (mkEnv 2 1130) gradingStarted)
    = Ok ("Essay", "Answer the question", 1100, 1, true) /\
  outcome (mkEnv 1 1130) (StartGrading 0) gradingStarted
    = Revert AlreadyStarted /\
  outcome (mkEnv 1 1150) (GradeSubmission 0 2 85 goodProof) gradingStarted
    = Ok tt /\
  snd (getAssignment 3 (mkEnv 2 1130) gradingStarted) = Revert NotFound /\
  events graded = [AssignmentCreated 0 1 "Essay" 1100;
                   SubmissionCreated 0 2 1050; GradeAssigned 0 2 1150] /\
  acl graded = {[ (42, 4096); (42, 1); (85, 4096); (85, 2) ]}.
Proof. repeat split; reflexivity. Qed.

Lemma createAssignment_roundtrip_witness :
  reachable deployed /\
  outcome (mkEnv 1 1000) (CreateAssignment "Essay" "Answer the question" 1100)
          deployed = Ok tt /\
  getAssignment 0 (mkEnv 2 1010)
      (exec (mkEnv 1 1000)
            (CreateAssignment "Essay" "Answer the question" 1100) deployed)
    = (exec (mkEnv 1 1000)
            (CreateAssignment "Essay" "Answer the question" 1100) deployed,
       Ok ("Essay", "Answer the question", 1100, 0, false)).
Proof.
  split; [exact deployed_is_reachable|]. split; [reflexivity|].
  exact (proj1 (proj2 (proj2 (proj2
           (createAssignment_roundtrip deployed (mkEnv 1 1000) (mkEnv 2 1010)
              "Essay" "Answer the question" 1100 deployed_is_reachable
              eq_refl))))).
Defined.

Lemma createAssignment_accepts_iff_witness :
  msg_sender (mkEnv 1 1000) = teacher deployed /\
  outcome (mkEnv 1 1000) (CreateAssignment "Essay" EmptyString 1000) deployed
    = Revert InvalidDeadline.
Proof.
  split; [reflexivity|].
  refine (proj1 (proj2
            (createAssignment_accepts_iff deployed (mkEnv 1 1000) "Essay"
               EmptyString 1000 eq_refl)) _).
  vm_compute. discriminate.
Defined.

Lemma getAssignment_allocated_witness :
  reachable created /\ totalAssignments created <= 5 /\
  getAssignment 5 (mkEnv 2 1010) created = (created, Revert NotFound).
Proof.
  split; [exact created_is_reachable|].
  split; [vm_compute; discriminate|].
  refine (proj1 (proj2
            (getAssignment_allocated created (mkEnv 2 1010) 5
               created_is_reachable) _)).
  vm_compute. discriminate.
Defined.

Lemma assignment_is_immutable_witness :
  reachable submitted /\ steps_to submitted graded /\
  assignmentExists submitted 0 = true /\
  a_deadline (assignmentAt graded 0) = a_deadline (assignmentAt submitted 0).
Proof.
  split; [exact submitted_is_reachable|].
  split; [exact submitted_to_graded|]. split; [reflexivity|].
  exact (proj1 (proj2 (proj2 (proj2 (proj2
           (assignment_is_immutable submitted graded 0
              submitted_is_reachable submitted_to_graded eq_refl)))))).
Defined.

Lemma startGrading_only_raises_latch_witness :
  outcome (mkEnv 1 1120) (StartGrading 0) submitted = Ok tt /\
  assignmentAt (exec (mkEnv 1 1120) (StartGrading 0) submitted) 0
    = with_isGrading true (assignmentAt submitted 0) /\
  outcome (mkEnv 1 1200) (StartGrading 0)
          (exec (mkEnv 1 1150) (GradeSubmission 0 2 85 goodProof)
             (exec (mkEnv 1 1120) (StartGrading 0) submitted)) <> Ok tt.
Proof.
  split; [reflexivity|].
  pose (T := startGrading_only_raises_latch submitted (mkEnv 1 1120) 0
               eq_refl).
  split; [exact (proj1 (proj2 T))|].
  refine (proj1 (proj2 (proj2 (proj2 (proj2 (proj2 (proj2 (proj2 T)))))
                         submitted_is_reachable _ _) (mkEnv 1 1200))).
  apply (steps_next _ _ (mkEnv 1 1150) (GradeSubmission 0 2 85 goodProof));
    [apply steps_refl|wf_now|wf_now].
Defined.

Lemma submission_window_before_grading_window_witness :
  reachable created /\ reachable submitted /\
  outcome (mkEnv 2 1050) (SubmitAssignment 0 42 goodProof) created = Ok tt /\
  outcome (mkEnv 1 1150) (GradeSubmission 0 2 85 goodProof) submitted
    = Ok tt /\
  block_timestamp (mkEnv 2 1050) < block_timestamp (mkEnv 1 1150).
Proof.
  split; [exact created_is_reachable|].
  split; [exact submitted_is_reachable|].
  split; [reflexivity|]. split; [reflexivity|].
  refine (submission_window_before_grading_window created submitted 0
            (mkEnv 2 1050) 42 goodProof (mkEnv 1 1150)
            (GradeSubmission 0 2 85 goodProof)
            created_is_reachable submitted_is_reachable _ eq_refl eq_refl
            eq_refl).
  left. apply steps_next; [apply steps_refl|wf_now|wf_now].
Defined.

Lemma stored_records_respect_deadline_witness :
  reachable graded /\ submissionExists graded 0 2 = true /\
  s_timestamp (submissionAt graded 0 2) < a_deadline (assignmentAt graded 0).
Proof.
  split; [exact graded_is_reachable|]. split; [reflexivity|].
  refine (proj2 (proj2 (proj2 (proj2 (proj1
            (stored_records_respect_deadline graded 0 2 graded_is_reachable)
            _)))) ).
  reflexivity.
Defined.

Lemma grades_never_exceed_submissions_witness :
  reachable graded /\
  N.of_nat (size (gradedStudents graded 0))
    <= a_submissionCount (assignmentAt graded 0).
Proof.
  split; [exact graded_is_reachable|].
  exact (proj2 (proj2
           (grades_never_exceed_submissions graded 0 graded_is_reachable))).
Defined.

Lemma submission_roundtrip_witness :
  outcome (mkEnv 2 1050) (SubmitAssignment 0 42 goodProof) created = Ok tt /\
  verifyInput 2 42 goodProof = Some 42 /\
  getSubmission 0 2 (mkEnv 1 1060)
      (exec (mkEnv 2 1050) (SubmitAssignment 0 42 goodProof) created)
    = (exec (mkEnv 2 1050) (SubmitAssignment 0 42 goodProof) created,
       Ok (42, 1050, true)).
Proof.
  split; [reflexivity|]. split; [reflexivity|].
  exact (proj1 (submission_roundtrip created (mkEnv 2 1050) (mkEnv 1 1060)
                  0 42 goodProof 42 eq_refl eq_refl)).
Defined.

Lemma grade_roundtrip_witness :
  outcome (mkEnv 1 1150) (GradeSubmission 0 2 85 goodProof) submitted
    = Ok tt /\
  verifyInput 1 85 goodProof = Some 85 /\
  getGrade 0 2 (mkEnv 2 1160)
      (exec (mkEnv 1 1150) (GradeSubmission 0 2 85 goodProof) submitted)
    = (exec (mkEnv 1 1150) (GradeSubmission 0 2 85 goodProof) submitted,
       Ok (85, 1150, true)).
Proof.
  split; [reflexivity|]. split; [reflexivity|].
  exact (proj1 (grade_roundtrip submitted (mkEnv 1 1150) (mkEnv 2 1160)
                  0 2 85 goodProof 85 eq_refl eq_refl)).
Defined.

Lemma allowances_only_grow_witness :
  steps_to submitted graded /\ acl submitted ⊆ acl graded.
Proof.
  split; [exact submitted_to_graded|].
  exact (proj1 (allowances_only_grow submitted graded submitted_to_graded)).
Defined.

Lemma allowances_match_records_witness :
  reachable graded /\ gradeExists graded 0 2 = true /\
  (g_encryptedScore (gradeAt graded 0 2), 2) ∈ acl graded /\
  ((exists id s, submissionExists graded id s = true /\
      s_encryptedAnswer (submissionAt graded id s)
        = g_encryptedScore (gradeAt graded 0 2) /\
      (this = this \/ this = teacher graded)) \/
   (exists id s, gradeExists graded id s = true /\
      g_encryptedScore (gradeAt graded id s)
        = g_encryptedScore (gradeAt graded 0 2) /\
      (this = this \/ this = s))).
Proof.
  split; [exact graded_is_reachable|]. split; [reflexivity|].
  pose (T := allowances_match_records graded graded_is_reachable).
  split.
  - exact (proj2 (proj1 (proj2 T) 0 2 eq_refl)).
  - exact (proj2 (proj2 T) _ this (proj1 (proj1 (proj2 T) 0 2 eq_refl))).
Defined.

Lemma log_is_append_only_witness :
  steps_to submitted graded /\ events submitted `prefix_of` events graded.
Proof.
  split; [exact submitted_to_graded|].
  exact (proj1 (log_is_append_only submitted graded submitted_to_graded)).
Defined.

Lemma log_matches_storage_witness :
  reachable graded /\
  N.of_nat (length (submissionEvents graded 0))
    = a_submissionCount (assignmentAt graded 0).
Proof.
  split; [exact graded_is_reachable|].
  exact (proj1 (proj2 (proj2 (proj2
           (log_matches_storage graded 0 graded_is_reachable))))).
Defined.

Lemma submissions_frozen_after_deadline_witness :
  reachable submitted /\ steps_since 1100 submitted graded /\
  assignmentExists submitted 0 = true /\
  a_deadline (assignmentAt submitted 0) <= 1100 /\
  submissionsOf graded 0 = submissionsOf submitted 0.
Proof.
  split; [exact submitted_is_reachable|].
  split; [exact submitted_since_deadline|]. split; [reflexivity|].
  split; [vm_compute; discriminate|].
  refine (proj1 (submissions_frozen_after_deadline 1100 submitted graded 0
                   submitted_is_reachable submitted_since_deadline eq_refl _)).
  vm_compute. discriminate.
Defined.

Lemma fresh_assignment_is_open_witness :
  reachable deployed /\
  outcome (mkEnv 1 1000) (CreateAssignment "Essay" "Answer the question" 1100)
          deployed = Ok tt /\
  outcome (mkEnv (teacher deployed) (block_timestamp (mkEnv 1 1000)))
          (StartGrading (totalAssignments deployed))
          (exec (mkEnv 1 1000)
                (CreateAssignment "Essay" "Answer the question" 1100) deployed)
    = Revert GradingNotOpen.
Proof.
  split; [exact deployed_is_reachable|]. split; [reflexivity|].
  exact (proj2 (proj2
           (fresh_assignment_is_open deployed (mkEnv 1 1000) "Essay"
              "Answer the question" 1100 deployed_is_reachable eq_refl))
           (StartGrading (totalAssignments deployed)) eq_refl).
Defined.

Lemma failed_body_has_written_nothing_witness :
  reachable created /\
  snd (body (SubmitAssignment 0 42 badProof) (mkEnv 2 1050) created)
    = Revert InvalidProof /\
  fst (body (SubmitAssignment 0 42 badProof) (mkEnv 2 1050) created) = created.
Proof.
  split; [exact created_is_reachable|]. split; [reflexivity|].
  exact (proj1 (failed_body_has_written_nothing created (mkEnv 2 1050)
                  (SubmitAssignment 0 42 badProof) InvalidProof
                  created_is_reachable eq_refl)).
Defined.

Lemma card_agrees_with_contract_witness :
  reachable created /\ assignmentExists created 0 = true /\
  (isDeadlinePassed 1100 (a_deadline (assignmentAt created 0)) = true <->
     a_deadline (assignmentAt created 0) <= 1100) /\
  reachable submitted /\ assignmentExists submitted 0 = true /\
  2 <> teacher submitted /\ submissionExists submitted 0 2 = true /\
  1060 < a_deadline (assignmentAt submitted 0) /\
  canSubmit false (a_deadline (assignmentAt submitted 0)) 1060 None true
    = true /\
  outcome (mkEnv 2 1060) (SubmitAssignment 0 42 goodProof) submitted
    = Revert AlreadySubmitted.
Proof.
  assert (2 <> teacher submitted) as Hne by (intros H; discriminate H).
  assert (1060 < a_deadline (assignmentAt submitted 0)) as Hlt
    by reflexivity.
  split; [exact created_is_reachable|]. split; [reflexivity|].
  split.
  { exact (proj1 (card_agrees_with_contract created 0 2 1100 42 goodProof
                    created_is_reachable eq_refl)). }
  split; [exact submitted_is_reachable|]. split; [reflexivity|].
  split; [exact Hne|]. split; [reflexivity|]. split; [exact Hlt|].
  exact (proj2 (proj2 (proj2 (proj2 (proj2 (proj2 (proj2
           (card_agrees_with_contract submitted 0 2 1060 42 goodProof
              submitted_is_reachable eq_refl)))))))
           Hne eq_refl Hlt).
Defined.

Lemma dashboard_lists_existing_assignments_witness :
  reachable created /\ totalAssignments created < 2 ^ 53 /\
  assignmentList (totalAssignments created) = creationEvents created.
Proof.
  split; [exact created_is_reachable|]. split; [reflexivity|].
  exact (proj1 (dashboard_lists_existing_assignments created (mkEnv 1 1010) 0
                  created_is_reachable eq_refl)).
Defined.

Lemma grading_dialog_lists_every_submitter_witness :
  reachable submittedTwice /\
  fetchSubmissions (mkEnv 1 1150) submittedTwice 0
    = Ok (rowOf submittedTwice 0 <$> submissionEvents submittedTwice 0).
Proof.
  assert (reachable submittedTwice) as Hr.
  { apply (reachable_intro 1).
    apply reachable_from_next; [exact submitted_reachable|wf_now|wf_now]. }
  split; [exact Hr|].
  exact (proj1 (grading_dialog_lists_every_submitter submittedTwice
                  (mkEnv 1 1150) 0 Hr)).
Defined.

Lemma create_form_passes_contract_checks_witness :
  handleCreateAssignment "Essay" "Answer the question" "2025-01-01T00:00"
      (Some 1100500%Z) 1000250%Z
    = WriteCreateAssignment "Essay" "Answer the question" 1100%Z /\
  outcome (mkEnv 1 1000)
          (CreateAssignment "Essay" "Answer the question" (Z.to_N 1100))
          deployed = Ok tt.
Proof.
  split; [reflexivity|].
  refine (proj2 (proj2 (proj2 (proj2 (proj2 (proj2
            (create_form_passes_contract_checks deployed (mkEnv 1 1000)
               "Essay" "Answer the question" "2025-01-01T00:00"
               (Some 1100500%Z) 1000250%Z "Essay" "Answer the question"
               1100%Z eq_refl eq_refl eq_refl _))))))).
  vm_compute. discriminate.
Defined.


(** The grading dialog in the scenario with two submitters. *)
Example grading_dialog_rows :
  fetchSubmissions (mkEnv 1 1150) submittedTwice 0
    = Ok [mkStudentSubmission 2 42 1050 None EmptyString false;
          mkStudentSubmission 3 100 1070 None EmptyString false] /\
  assignmentList 3 = [0; 1; 2] /\
  string_of_list_ascii (formatHandle [Byte.xab; Byte.x01])
    = "0xab01000000000000000000000000000000000000000000000000000000000000"
  /\ string_of_list_ascii (toString16 48879) = "beef".
Proof. repeat split; reflexivity. Qed.

End MoreScenario.
